(** * theblobapp/static/js/app.js: the feed page script

    A shallow embedding of the browser-side script of TheBlob: the scroll
    listener that drives pagination, the two socket handlers of the live
    feed channel and the registration of the search box listener.

    The script is event driven and single threaded.  Each handler of the
    source is a function from what it reads (window metrics, the event
    payload) to the sequence of calls it makes; a small page runtime
    executes those calls, keeps the timers and dispatches events to the
    registered listeners.  Time is a virtual clock counted in
    milliseconds. *)

From Stdlib Require Import ZArith NArith Lia.
From stdpp Require Import base option list strings gmap.

Local Open Scope string_scope.
Local Open Scope Z_scope.

Local Set Warnings "-register-all".

(** ** JavaScript values *)

Module JS.

(** The values a decoded socket payload is made of.  Numbers are the
    integral ones (lengths always are), a string has one code unit per
    character, objects are maps from property names to values. *)
Inductive jsval :=
| JUndefined
| JNull
| JBool (b : bool)
| JNum (n : Z)
| JStr (s : string)
| JArr (items : list jsval)
| JObj (fields : gmap string jsval).

Inductive exn := TypeError.

Inductive result (A : Type) :=
| Ok (a : A)
| Throw (e : exn).
Arguments Ok {A} a.
Arguments Throw {A} e.

Definition bind {A B} (r : result A) (k : A → result B) : result B :=
  match r with
  | Ok a => k a
  | Throw e => Throw e
  end.

(** [v.name] for a property that no prototype provides (the script reads
    only [blobs] and [length]): reading a property of [undefined] or
    [null] throws, strings and arrays own [length], an object answers
    with its own field, everything else gives [undefined]. *)
Definition get_prop (v : jsval) (name : string) : result jsval :=
  match v with
  | JUndefined | JNull => Throw TypeError
  | JBool _ | JNum _ => Ok JUndefined
  | JStr s =>
      if String.eqb name "length" then Ok (JNum (Z.of_nat (String.length s)))
      else Ok JUndefined
  | JArr items =>
      if String.eqb name "length" then Ok (JNum (Z.of_nat (length items)))
      else Ok JUndefined
  | JObj fields =>
      match fields !! name with
      | Some w => Ok w
      | None => Ok JUndefined
      end
  end.

Section Compare.

(** [v > 0] on a string, an array or an object goes through the engine's
    conversion of the operand to a primitive and then to a number.  The
    conversion is a parameter: it answers whether the outcome is a number
    above zero, or throws (an object whose [valueOf] and [toString] are
    not callable cannot be converted). *)
Variable coerced_gt0 : jsval → result bool.

(** [v > 0]: [undefined] converts to NaN and [null] to 0, neither is
    greater than 0; [true] converts to 1 and [false] to 0. *)
Definition gt0 (v : jsval) : result bool :=
  match v with
  | JUndefined | JNull => Ok false
  | JBool b => Ok b
  | JNum n => Ok (0 <? n)
  | JStr _ | JArr _ | JObj _ => coerced_gt0 v
  end.

End Compare.

End JS.
Import JS.

(** ** Calls, callbacks and the handlers of the source *)

(** Where a listener is registered: [window], the [socket] returned by
    [io()], or a DOM element known by its id. *)
Inductive target :=
| Window
| Socket
| Element (id : string).

(** Function values of the script: its four arrow functions, the routine
    [handleSearch] and the value of [debounce(fn, wait)]. *)
Inductive callback :=
| ScrollListener
| ConnectHandler
| NewBlobsHandler
| RequestUpdateTimer
| HandleSearch
| Debounced (fn : callback) (wait : N).

(** Calls a handler makes on the platform or on routines of the page. *)
Inductive call :=
| LoadMoreBlobs
| UpdateFeed (arg : jsval)
| ConsoleLog (msg : string)
| SetInterval (cb : callback) (ms : N)
| SocketEmit (signal : string)
| AddEventListener (tg : target) (type : string) (cb : callback).

(** What the scroll listener reads: [window.innerHeight],
    [window.scrollY] and [document.body.offsetHeight], in whole pixels. *)
Record viewport := {
  innerHeight : Z;
  scrollY : Z;
  offsetHeight : Z
}.

(** window.addEventListener('scroll', () => { if (...) loadMoreBlobs(); }) *)
Definition scroll_listener (w : viewport) : list call :=
  if innerHeight w + scrollY w >=? offsetHeight w - 1000
  then [LoadMoreBlobs]
  else [].

(** socket.on('connect', () => { console.log(...); setInterval(..., 30000); }) *)
Definition connect_handler : list call :=
  [ConsoleLog "Connected to WebSocket"; SetInterval RequestUpdateTimer 30000].

(** () => { socket.emit('request_update'); } *)
Definition request_update_timer : list call :=
  [SocketEmit "request_update"].

Section Page.

Variable coerced_gt0 : jsval → result bool.

(** socket.on('new_blobs', (data) => { if (data.blobs.length > 0) updateFeed(data.blobs); }) *)
Definition new_blobs_handler (data : jsval) : result (list call) :=
  bind (get_prop data "blobs") (λ blobs,
  bind (get_prop blobs "length") (λ len,
  bind (gt0 coerced_gt0 len) (λ positive,
  if positive then Ok [UpdateFeed blobs] else Ok []))).

(** const searchInput = document.getElementById('search'): the element,
    here its current text, or null.  A document is given by its elements,
    id ↦ current text. *)
Definition searchInput (doc : gmap string string) : option string :=
  doc !! "search".

(** The top level of the script: the three registrations, then the
    search box listener when [searchInput] is not null.  [window] and
    [socket] take their listeners through the same call. *)
Definition script (doc : gmap string string) : list call :=
  [AddEventListener Window "scroll" ScrollListener;
   AddEventListener Socket "connect" ConnectHandler;
   AddEventListener Socket "new_blobs" NewBlobsHandler]
  ++ match searchInput doc with
     | Some _ => [AddEventListener (Element "search") "input"
                    (Debounced HandleSearch 500)]
     | None => []
     end.

(** ** The page runtime *)

Record listener := {
  l_target : target;
  l_type : string;
  l_callback : callback
}.

(** A running [setInterval] timer: milliseconds until it next fires. *)
Record interval := {
  remaining : N;
  period : N;
  i_callback : callback
}.

(** What the page does that the outside can observe. *)
Inductive effect :=
| Called (c : call)
| Fetch (page_number : Z)
| SearchRequest (query : string)
| Uncaught (e : exn).

Record page := {
  currentPage : Z;
  loading : bool;
  window : viewport;
  document : gmap string string;
  listeners : list listener;
  intervals : list interval;
  debounce_timer : option (N * callback);
  inflight : list Z;
  feed : list jsval;
  log : list effect
}.

Definition record_effect (e : effect) (p : page) : page :=
  {| currentPage := currentPage p; loading := loading p; window := window p;
     document := document p; listeners := listeners p;
     intervals := intervals p; debounce_timer := debounce_timer p;
     inflight := inflight p; feed := feed p; log := log p ++ [e] |}.

Definition set_window (w : viewport) (p : page) : page :=
  {| currentPage := currentPage p; loading := loading p; window := w;
     document := document p; listeners := listeners p;
     intervals := intervals p; debounce_timer := debounce_timer p;
     inflight := inflight p; feed := feed p; log := log p |}.

Definition set_document (d : gmap string string) (p : page) : page :=
  {| currentPage := currentPage p; loading := loading p; window := window p;
     document := d; listeners := listeners p;
     intervals := intervals p; debounce_timer := debounce_timer p;
     inflight := inflight p; feed := feed p; log := log p |}.

Definition set_listeners (ls : list listener) (p : page) : page :=
  {| currentPage := currentPage p; loading := loading p; window := window p;
     document := document p; listeners := ls;
     intervals := intervals p; debounce_timer := debounce_timer p;
     inflight := inflight p; feed := feed p; log := log p |}.

Definition set_intervals (ts : list interval) (p : page) : page :=
  {| currentPage := currentPage p; loading := loading p; window := window p;
     document := document p; listeners := listeners p;
     intervals := ts; debounce_timer := debounce_timer p;
     inflight := inflight p; feed := feed p; log := log p |}.

Definition set_debounce_timer (t : option (N * callback)) (p : page) : page :=
  {| currentPage := currentPage p; loading := loading p; window := window p;
     document := document p; listeners := listeners p;
     intervals := intervals p; debounce_timer := t;
     inflight := inflight p; feed := feed p; log := log p |}.

Definition set_feed (f : list jsval) (p : page) : page :=
  {| currentPage := currentPage p; loading := loading p; window := window p;
     document := document p; listeners := listeners p;
     intervals := intervals p; debounce_timer := debounce_timer p;
     inflight := inflight p; feed := f; log := log p |}.

(** The pagination state changes together: cursor, flag, pending fetches. *)
Definition set_pagination (n : Z) (b : bool) (fs : list Z) (p : page) : page :=
  {| currentPage := n; loading := b; window := window p;
     document := document p; listeners := listeners p;
     intervals := intervals p; debounce_timer := debounce_timer p;
     inflight := fs; feed := feed p; log := log p |}.

(** Modelled from the spec: [loadMoreBlobs] is called by the scroll
    listener but defined nowhere in the sources.  Section 4.2: if the
    Loading Flag is true the trigger is a no-op; otherwise the flag is
    set and a fetch is issued for the page the Page Cursor names. *)
Definition loadMoreBlobs (p : page) : page :=
  if loading p then p
  else record_effect (Fetch (currentPage p))
         (set_pagination (currentPage p) true
            (inflight p ++ [currentPage p]) p).

(** Modelled from the spec: completion of a pagination fetch, also
    missing from the sources.  Section 4.2: the returned items are
    appended to the feed, the Page Cursor is incremented and the Loading
    Flag is cleared.  With nothing in flight there is nothing to complete. *)
Definition fetch_resolved (items : list jsval) (p : page) : page :=
  match inflight p with
  | [] => p
  | _ :: rest =>
      set_feed (feed p ++ items)
        (set_pagination (currentPage p + 1) false rest p)
  end.

(** Modelled from the spec: [updateFeed] is called by the [new_blobs]
    handler but defined nowhere in the sources.  Section 4.1: the received
    items are prepended to the rendered feed, in the order received.  The
    spec speaks of sequences only; any other argument leaves the feed as
    it is. *)
Definition updateFeed (arg : jsval) (p : page) : page :=
  match arg with
  | JArr items => set_feed (items ++ feed p) p
  | _ => p
  end.

(** Modelled from the spec: [handleSearch] is missing from the sources.
    Section 4.3: it issues a search request reflecting the text in the
    search input at the time it runs. *)
Definition handleSearch (p : page) : page :=
  record_effect (SearchRequest (default "" (document p !! "search"))) p.

(** Modelled from the spec: [debounce] is missing from the sources.
    Section 4.3: the wrapped routine fires only after [wait] milliseconds
    of quiet since the last call; a call within the window restarts the
    timer. *)
Definition debounce (fn : callback) (wait : N) (p : page) : page :=
  set_debounce_timer (Some (wait, fn)) p.

Definition exec_call (c : call) (p : page) : page :=
  let q := record_effect (Called c) p in
  match c with
  | LoadMoreBlobs => loadMoreBlobs q
  | UpdateFeed arg => updateFeed arg q
  | ConsoleLog _ => q
  | SetInterval cb ms =>
      set_intervals (intervals q ++
        [{| remaining := ms; period := ms; i_callback := cb |}]) q
  | SocketEmit _ => q
  | AddEventListener tg ty cb =>
      set_listeners (listeners q ++
        [{| l_target := tg; l_type := ty; l_callback := cb |}]) q
  end.

Definition exec_calls (cs : list call) (p : page) : page :=
  fold_left (λ q c, exec_call c q) cs p.

(** Running a function value with the argument the platform passes.  An
    exception ends the handler and is reported as uncaught. *)
Definition run_callback (cb : callback) (arg : jsval) (p : page) : page :=
  match cb with
  | ScrollListener => exec_calls (scroll_listener (window p)) p
  | ConnectHandler => exec_calls connect_handler p
  | NewBlobsHandler =>
      match new_blobs_handler arg with
      | Ok cs => exec_calls cs p
      | Throw e => record_effect (Uncaught e) p
      end
  | RequestUpdateTimer => exec_calls request_update_timer p
  | HandleSearch => handleSearch p
  | Debounced fn wait => debounce fn wait p
  end.

Definition target_eqb (a b : target) : bool :=
  match a, b with
  | Window, Window => true
  | Socket, Socket => true
  | Element x, Element y => String.eqb x y
  | _, _ => false
  end.

Definition listens (tg : target) (ty : string) (l : listener) : bool :=
  target_eqb tg (l_target l) && String.eqb ty (l_type l).

(** An event of type [ty] on [tg] runs, in registration order, the
    listeners registered for that type on that target. *)
Definition dispatch (tg : target) (ty : string) (arg : jsval) (p : page)
  : page :=
  fold_left
    (λ q l, if listens tg ty l then run_callback (l_callback l) arg q else q)
    (listeners p) p.

(** One millisecond passes for an interval timer: when its time is up it
    fires and is armed again for a full period. *)
Definition tick_interval (t : interval) : interval * list callback :=
  let r := N.pred (remaining t) in
  if (r =? 0)%N
  then ({| remaining := period t; period := period t;
           i_callback := i_callback t |}, [i_callback t])
  else ({| remaining := r; period := period t;
           i_callback := i_callback t |}, []).

(** One millisecond passes for the debounce timer. *)
Definition tick_debounce (t : option (N * callback))
  : option (N * callback) * list callback :=
  match t with
  | None => (None, [])
  | Some (r, fn) =>
      let r' := N.pred r in
      if (r' =? 0)%N then (None, [fn]) else (Some (r', fn), [])
  end.

(** One millisecond of the virtual clock: every timer advances, then the
    callbacks that came due run. *)
Definition tick (p : page) : page :=
  let ts := map tick_interval (intervals p) in
  let d := tick_debounce (debounce_timer p) in
  let q := set_debounce_timer (fst d) (set_intervals (map fst ts) p) in
  fold_left (λ s cb, run_callback cb JUndefined s)
    (concat (map snd ts) ++ snd d) q.

(** What happens to the page: the user scrolls to [w]; the socket
    connects; the server pushes [new_blobs] with a payload; a keystroke
    leaves [text] in the element [id], which raises its [input] event; the
    element raises its [change] event; the pending pagination fetch
    completes; [ms] milliseconds pass.  No listener of the script reads
    the event object of a DOM event, so none is passed.  A timer due at
    the very millisecond of an event has fired when the event arrives. *)
Inductive event :=
| Scroll (w : viewport)
| Connect
| NewBlobs (data : jsval)
| Keystroke (id text : string)
| Change (id : string)
| FetchResolved (items : list jsval)
| Wait (ms : N).

Definition step (e : event) (p : page) : page :=
  match e with
  | Scroll w => dispatch Window "scroll" JUndefined (set_window w p)
  | Connect => dispatch Socket "connect" JUndefined p
  | NewBlobs data => dispatch Socket "new_blobs" data p
  | Keystroke id text =>
      match document p !! id with
      | Some _ =>
          dispatch (Element id) "input" JUndefined
            (set_document (<[id := text]> (document p)) p)
      | None => p
      end
  | Change id =>
      match document p !! id with
      | Some _ => dispatch (Element id) "change" JUndefined p
      | None => p
      end
  | FetchResolved items => fetch_resolved items p
  | Wait ms => N.iter ms tick p
  end.

Definition run (es : list event) (p : page) : page :=
  fold_left (λ q e, step e q) es p.

(** The page before the script runs: [currentPage = 1], [loading = false]. *)
Definition blank (doc : gmap string string) : page :=
  {| currentPage := 1; loading := false;
     window := {| innerHeight := 0; scrollY := 0; offsetHeight := 0 |};
     document := doc; listeners := []; intervals := [];
     debounce_timer := None; inflight := []; feed := []; log := [] |}.

(** The page once the script has run. *)
Definition boot (doc : gmap string string) : page :=
  exec_calls (script doc) (blank doc).

(** ** Observations on the log *)

Definition invocations_of_loadMoreBlobs (p : page) : nat :=
  length (omap (λ e, match e with
                     | Called LoadMoreBlobs => Some tt
                     | _ => None
                     end) (log p)).

Definition updateFeed_calls (p : page) : list jsval :=
  omap (λ e, match e with
             | Called (UpdateFeed arg) => Some arg
             | _ => None
             end) (log p).

Definition emitted (signal : string) (p : page) : nat :=
  length (omap (λ e, match e with
                     | Called (SocketEmit s) =>
                         if String.eqb s signal then Some tt else None
                     | _ => None
                     end) (log p)).

Definition fetches (p : page) : list Z :=
  omap (λ e, match e with Fetch n => Some n | _ => None end) (log p).

Definition searches (p : page) : list string :=
  omap (λ e, match e with SearchRequest q => Some q | _ => None end) (log p).

Definition uncaught (p : page) : list exn :=
  omap (λ e, match e with Uncaught x => Some x | _ => None end) (log p).

(** Listeners registered on a target, as (event type, callback). *)
Definition listeners_on (tg : target) (p : page) : list (string * callback) :=
  omap (λ l, if target_eqb tg (l_target l)
             then Some (l_type l, l_callback l) else None) (listeners p).

(** The milliseconds that pass during some events. *)
Definition elapsed (es : list event) : N :=
  fold_right (λ e ms, match e with Wait w => (w + ms)%N | _ => ms end) 0%N es.

(** Any event but a keystroke in the search box. *)
Definition beside_search (e : event) : Prop :=
  ∀ text, e ≠ Keystroke "search" text.

(** Typing in the search box while the page lives on: before each
    keystroke, which leaves [text] in the input, some events that are
    not keystrokes in the search box (time passing, timers firing,
    scrolling, pushes from the server, typing elsewhere). *)
Definition typing_among (keys : list (list event * string)) : list event :=
  flat_map (λ k : list event * string,
              (k.1 ++ [Keystroke "search" k.2])%list) keys.

(** The pause before each keystroke, with the text it leaves. *)
Definition gaps (keys : list (list event * string)) : list (N * string) :=
  map (λ k : list event * string, (elapsed k.1, k.2)) keys.

(** The pagination guard: the flag is set exactly while one fetch is
    pending, and never more than one is. *)
Definition pagination_ok (p : page) : Prop :=
  (loading p = false ∧ inflight p = []) ∨
  (loading p = true ∧ ∃ n, inflight p = [n]).

(** The listeners the script registers, with or without the search box. *)
Definition registered (with_search : bool) : list listener :=
  [{| l_target := Window; l_type := "scroll"; l_callback := ScrollListener |};
   {| l_target := Socket; l_type := "connect"; l_callback := ConnectHandler |};
   {| l_target := Socket; l_type := "new_blobs";
      l_callback := NewBlobsHandler |}]
  ++ (if with_search
      then [{| l_target := Element "search"; l_type := "input";
               l_callback := Debounced HandleSearch 500 |}]
      else []).

(** The requests typing has fired by its last keystroke: the text left
    in the input by each keystroke that a pause of at least 500 ms
    follows. *)
Fixpoint fired (text : string) (keys : list (N * string)) : list string :=
  match keys with
  | [] => []
  | k :: keys' =>
      (if (500 <=? k.1)%N then [text] else []) ++ fired k.2 keys'
  end.

(** While the flag is set nothing but the completion of the fetch touches
    the pagination state or issues a fetch. *)
Definition busy_like (p q : page) : Prop :=
  loading q = true ∧ inflight q = inflight p ∧ fetches q = fetches p.

(** Calls that register a listener. *)
Definition registers (c : call) : bool :=
  match c with
  | AddEventListener _ _ _ => true
  | _ => false
  end.

(** The timer [connect_handler] starts, with [r] ms left to run. *)
Definition update_timer (r : N) : interval :=
  {| remaining := r; period := 30000; i_callback := RequestUpdateTimer |}.

(** Sample inputs: a document with an empty search box, a window
    scrolled to 1000 pixels above the bottom of the body, and an engine
    whose coercion of a non-primitive operand never throws and never
    gives a positive number. *)
Definition sample_document : gmap string string := {[ "search" := "" ]}.

Definition near_bottom : viewport :=
  {| innerHeight := 800; scrollY := 200; offsetHeight := 2000 |}.

Definition never_positive : jsval → result bool := λ _, Ok false.

(** ** Whole histories *)

(** The test of the scroll listener. *)
Definition near_end (w : viewport) : Prop :=
  innerHeight w + scrollY w >= offsetHeight w - 1000.

(** The scroll events of a history that pass that test. *)
Definition loading_scrolls (es : list event) : list viewport :=
  omap (λ e, match e with
             | Scroll w => if bool_decide (near_end w) then Some w else None
             | _ => None
             end) es.

(** A payload on which [data.blobs.length] cannot be read: [data] or
    [data.blobs] is [undefined] or [null]. *)
Definition blobs_missing (data : jsval) : bool :=
  match data with
  | JUndefined | JNull => true
  | JObj fields =>
      match fields !! "blobs" with
      | None | Some JUndefined | Some JNull => true
      | Some _ => false
      end
  | _ => true
  end.

(** [blobs.length > 0] for a [blobs] that is there: the length of a
    string or an array is a number; an object answers with its own
    [length], which the comparison may have to convert; anything else
    has no length. *)
Definition has_positive_length (blobs : jsval) : result bool :=
  match blobs with
  | JStr s => Ok (negb (String.eqb s ""))
  | JArr items => Ok (match items with [] => false | _ :: _ => true end)
  | JObj fields =>
      match fields !! "length" with
      | Some len => gt0 coerced_gt0 len
      | None => Ok false
      end
  | _ => Ok false
  end.

(** A payload whose [blobs] is there but on which the comparison
    [data.blobs.length > 0] throws. *)
Definition comparison_throws (data : jsval) : bool :=
  match data with
  | JObj fields =>
      match fields !! "blobs" with
      | Some blobs =>
          match has_positive_length blobs with
          | Throw _ => true
          | Ok _ => false
          end
      | None => false
      end
  | _ => false
  end.

(** The value a payload hands to [updateFeed], if it hands one. *)
Definition feed_argument (data : jsval) : option jsval :=
  match data with
  | JObj fields =>
      match fields !! "blobs" with
      | Some blobs =>
          match has_positive_length blobs with
          | Ok true => Some blobs
          | _ => None
          end
      | None => None
      end
  | _ => None
  end.

(** The payloads of the [new_blobs] events of a history. *)
Definition payloads (es : list event) : list jsval :=
  omap (λ e, match e with NewBlobs data => Some data | _ => None end) es.

(** For each [connect] of a history, in order, the milliseconds that
    have passed since. *)
Definition age_step (ages : list N) (e : event) : list N :=
  match e with
  | Connect => (ages ++ [0%N])%list
  | Wait ms => map (N.add ms) ages
  | _ => ages
  end.

Definition timer_ages (es : list event) : list N :=
  fold_left age_step es [].

Definition connects (es : list event) : nat :=
  length (omap (λ e, match e with Connect => Some tt | _ => None end) es).

(** [p] with [d] added at the end of its log. *)
Definition append_log (d : list effect) (p : page) : page :=
  {| currentPage := currentPage p; loading := loading p; window := window p;
     document := document p; listeners := listeners p;
     intervals := intervals p; debounce_timer := debounce_timer p;
     inflight := inflight p; feed := feed p; log := log p ++ d |}.

(** What a timer callback of the script logs when it runs. *)
Definition timer_effect (doc : gmap string string) (cb : callback) : effect :=
  match cb with
  | HandleSearch => SearchRequest (default "" (doc !! "search"))
  | _ => Called (SocketEmit "request_update")
  end.

(** The timers a page of the script can hold: update timers started by
    [connect_handler], and a debounce timer that waits for
    [handleSearch]. *)
Definition timers_ok (p : page) : Prop :=
  Forall (λ t, period t = 30000%N ∧ i_callback t = RequestUpdateTimer)
    (intervals p) ∧
  (debounce_timer p = None ∨ ∃ r, debounce_timer p = Some (r, HandleSearch)).

Definition script_page (with_search : bool) (p : page) : Prop :=
  listeners p = registered with_search ∧ timers_ok p.

(** What an event other than the passing of time adds to the log. *)
Definition event_log (e : event) (p : page) : list effect :=
  match e with
  | Scroll w =>
      if innerHeight w + scrollY w >=? offsetHeight w - 1000
      then Called LoadMoreBlobs
           :: (if loading p then [] else [Fetch (currentPage p)])
      else []
  | Connect => map Called connect_handler
  | NewBlobs data =>
      match new_blobs_handler data with
      | Ok cs => map Called cs
      | Throw x => [Uncaught x]
      end
  | _ => []
  end.

(** An effect only a timer of the script produces. *)
Definition is_timer_effect (e : effect) : Prop :=
  e = Called (SocketEmit "request_update") ∨ ∃ q, e = SearchRequest q.

(** The [request_update] signals among some effects. *)
Definition emits (d : list effect) : nat :=
  length (omap (λ e, match e with
                     | Called (SocketEmit s) =>
                         if String.eqb s "request_update" then Some tt
                         else None
                     | _ => None
                     end) d).

(** What is left on an update timer started [age] milliseconds ago. *)
Definition time_left (age : N) : N := (30000 - age mod 30000)%N.

(** A page whose update timers were started the given times ago and
    have fired as often as that is worth. *)
Definition aged (ages : list N) (p : page) : Prop :=
  intervals p = map (λ a, update_timer (time_left a)) ages ∧
  emitted "request_update" p
  = sum_list_with (λ a, N.to_nat (a / 30000)) ages.

(** A page on which the search box never came to life. *)
Definition search_idle (p : page) : Prop :=
  script_page false p ∧ debounce_timer p = None ∧ searches p = [].

(** A sample engine that cannot convert an object that owns a
    [toString] (in a decoded payload it is never callable), and finds no
    positive number anywhere else. *)
Definition own_toString_unconvertible : jsval → result bool :=
  λ v, match v with
       | JObj fields =>
           if bool_decide (is_Some (fields !! "toString"))
           then Throw TypeError else Ok false
       | _ => Ok false
       end.

(** ** Folds and the effect of each routine on the log *)

Lemma fold_left_preserves {A B} (P : A → Prop) (f : A → B → A) l a :
  (∀ x b, P x → P (f x b)) → P a → P (fold_left f l a).
Proof.
  intros Hstep. revert a.
  induction l as [|b l IH]; intros a Ha; simpl; [assumption|].
  apply IH, Hstep, Ha.
Qed.

Lemma iter_tick_preserves (P : page → Prop) ms p :
  (∀ q, P q → P (tick q)) → P p → P (N.iter ms tick p).
Proof.
  intros Hstep Hp.
  induction ms as [|n IH] using N.peano_ind; [exact Hp|].
  rewrite N.iter_succ. apply Hstep, IH.
Qed.

Lemma new_blobs_handler_cases data :
  new_blobs_handler data = Throw TypeError ∨
  new_blobs_handler data = Ok [] ∨
  ∃ blobs, new_blobs_handler data = Ok [UpdateFeed blobs].
Proof.
  unfold new_blobs_handler.
  destruct (get_prop data "blobs") as [blobs|[]]; simpl; [|by left].
  destruct (get_prop blobs "length") as [len|[]]; simpl; [|by left].
  destruct (gt0 coerced_gt0 len) as [[]|[]]; simpl; eauto.
Qed.

(** ** The pagination guard *)

Lemma pagination_ok_record e p :
  pagination_ok p → pagination_ok (record_effect e p).
Proof. intros H. exact H. Qed.

Lemma pagination_ok_loadMoreBlobs p :
  pagination_ok p → pagination_ok (loadMoreBlobs p).
Proof.
  intros H. unfold loadMoreBlobs.
  destruct (loading p) eqn:Hl; [exact H|].
  destruct H as [[_ Hin]|[Hl' _]]; [|congruence].
  right. simpl. rewrite Hin. eauto.
Qed.

Lemma pagination_ok_fetch_resolved items p :
  pagination_ok p → pagination_ok (fetch_resolved items p).
Proof.
  intros H. unfold fetch_resolved.
  destruct (inflight p) as [|n rest] eqn:Hin; [exact H|].
  left. simpl. split; [reflexivity|].
  destruct H as [[_ H]|[_ [m H]]]; congruence.
Qed.

Lemma pagination_ok_updateFeed arg p :
  pagination_ok p → pagination_ok (updateFeed arg p).
Proof. intros H. destruct arg; exact H. Qed.

Lemma pagination_ok_exec_call c p :
  pagination_ok p → pagination_ok (exec_call c p).
Proof.
  intros H. destruct c; simpl; try exact H.
  - apply pagination_ok_loadMoreBlobs, H.
  - apply pagination_ok_updateFeed, H.
Qed.

Lemma pagination_ok_exec_calls cs p :
  pagination_ok p → pagination_ok (exec_calls cs p).
Proof.
  apply fold_left_preserves. intros q c. apply pagination_ok_exec_call.
Qed.

Lemma pagination_ok_run_callback cb arg p :
  pagination_ok p → pagination_ok (run_callback cb arg p).
Proof.
  intros H. destruct cb; simpl; try exact H;
    try (apply pagination_ok_exec_calls, H).
  destruct (new_blobs_handler arg); [apply pagination_ok_exec_calls|]; exact H.
Qed.

Lemma pagination_ok_dispatch tg ty arg p :
  pagination_ok p → pagination_ok (dispatch tg ty arg p).
Proof.
  apply fold_left_preserves. intros q l Hq.
  destruct (listens tg ty l); [apply pagination_ok_run_callback|]; exact Hq.
Qed.

Lemma pagination_ok_tick p : pagination_ok p → pagination_ok (tick p).
Proof.
  intros H. unfold tick. apply fold_left_preserves; [|exact H].
  intros q cb. apply pagination_ok_run_callback.
Qed.

Lemma pagination_ok_step e p : pagination_ok p → pagination_ok (step e p).
Proof.
  intros H. destruct e as [w| |data|id text|id|items|ms]; simpl.
  - apply pagination_ok_dispatch, H.
  - apply pagination_ok_dispatch, H.
  - apply pagination_ok_dispatch, H.
  - destruct (document p !! id); [apply pagination_ok_dispatch|]; exact H.
  - destruct (document p !! id); [apply pagination_ok_dispatch|]; exact H.
  - apply pagination_ok_fetch_resolved, H.
  - apply iter_tick_preserves; [apply pagination_ok_tick|exact H].
Qed.

Lemma pagination_ok_run es p : pagination_ok p → pagination_ok (run es p).
Proof. apply fold_left_preserves. intros q e. apply pagination_ok_step. Qed.

Lemma pagination_ok_boot doc : pagination_ok (boot doc).
Proof.
  apply pagination_ok_exec_calls. left. split; reflexivity.
Qed.

Lemma busy_like_record p q e :
  (∀ n, e ≠ Fetch n) → busy_like p q → busy_like p (record_effect e q).
Proof.
  intros He (Hl & Hi & Hf). repeat split; try assumption.
  unfold fetches in *. simpl. rewrite omap_app, Hf. simpl.
  destruct e; try (by rewrite app_nil_r). by destruct (He page_number).
Qed.

Lemma busy_like_exec_call p q c : busy_like p q → busy_like p (exec_call c q).
Proof.
  intros H.
  assert (Hr : busy_like p (record_effect (Called c) q))
    by (apply busy_like_record; [discriminate|exact H]).
  destruct c; simpl; try exact Hr.
  - unfold loadMoreBlobs. destruct Hr as (Hl & Hi & Hf).
    rewrite Hl. repeat split; assumption.
  - destruct arg; exact Hr.
Qed.

Lemma busy_like_exec_calls p cs q :
  busy_like p q → busy_like p (exec_calls cs q).
Proof.
  apply (fold_left_preserves (busy_like p)). intros x c.
  apply busy_like_exec_call.
Qed.

Lemma busy_like_run_callback p cb arg q :
  busy_like p q → busy_like p (run_callback cb arg q).
Proof.
  intros H. destruct cb; unfold run_callback.
  - apply busy_like_exec_calls, H.
  - apply busy_like_exec_calls, H.
  - destruct (new_blobs_handler arg).
    + apply busy_like_exec_calls, H.
    + apply busy_like_record; [discriminate|exact H].
  - apply busy_like_exec_calls, H.
  - apply busy_like_record; [discriminate|exact H].
  - exact H.
Qed.

Lemma busy_like_dispatch p tg ty arg q :
  busy_like p q → busy_like p (dispatch tg ty arg q).
Proof.
  apply (fold_left_preserves (busy_like p)). intros x l Hx.
  destruct (listens tg ty l); [apply busy_like_run_callback|]; exact Hx.
Qed.

Lemma busy_like_scrolls p ws q :
  busy_like p q → busy_like p (run (map Scroll ws) q).
Proof.
  revert q. induction ws as [|w ws IH]; intros q Hq; [exact Hq|].
  simpl. apply IH, busy_like_dispatch. exact Hq.
Qed.

(** C1. Whatever has happened to the page, at most one pagination fetch
    is pending and the Loading Flag is set exactly while one is; and from
    a page whose Loading Flag is set, any sequence of scroll events
    issues no further fetch and leaves the pending one pending. *)
Theorem no_overlapping_pagination_fetches doc es ws :
  let p := run es (boot doc) in
  (length (inflight p) ≤ 1)%nat ∧
  (loading p = true ↔ length (inflight p) = 1%nat) ∧
  (loading p = true →
   let q := run (map Scroll ws) p in
   fetches q = fetches p ∧ inflight q = inflight p ∧ loading q = true).
Proof.
  intros p.
  assert (Hok : pagination_ok p)
    by apply pagination_ok_run, pagination_ok_boot.
  split; [|split].
  - destruct Hok as [[_ ->]|[_ [n ->]]]; simpl; lia.
  - destruct Hok as [[Hl ->]|[Hl [n ->]]]; simpl; split; congruence.
  - intros Hl q.
    destruct (busy_like_scrolls p ws p) as (H1 & H2 & H3); [by repeat split|].
    auto.
Qed.

(** ** Listeners stay as the script registered them *)

Lemma listeners_exec_call c p :
  registers c = false → listeners (exec_call c p) = listeners p.
Proof.
  destruct c; simpl; intros Hc; try reflexivity; try discriminate.
  - unfold loadMoreBlobs. simpl. by destruct (loading p).
  - by destruct arg.
Qed.

Lemma listeners_exec_calls cs p :
  forallb (λ c, negb (registers c)) cs = true →
  listeners (exec_calls cs p) = listeners p.
Proof.
  revert p. induction cs as [|c cs IH]; intros p Hcs; [reflexivity|].
  simpl in Hcs. apply andb_prop in Hcs as [Hc Hcs].
  change (exec_calls (c :: cs) p) with (exec_calls cs (exec_call c p)).
  rewrite IH by exact Hcs. apply listeners_exec_call.
  by destruct (registers c).
Qed.

Lemma listeners_run_callback cb arg p :
  listeners (run_callback cb arg p) = listeners p.
Proof.
  destruct cb; unfold run_callback.
  - apply listeners_exec_calls. unfold scroll_listener.
    by destruct (_ >=? _).
  - by apply listeners_exec_calls.
  - destruct (new_blobs_handler_cases arg) as [->|[->|[b ->]]];
      [reflexivity|by apply listeners_exec_calls..].
  - by apply listeners_exec_calls.
  - reflexivity.
  - reflexivity.
Qed.

Lemma listeners_fold_callbacks (f : page → callback → page) cbs p :
  (∀ q cb, listeners (f q cb) = listeners q) →
  listeners (fold_left f cbs p) = listeners p.
Proof.
  intros Hf.
  apply (fold_left_preserves (λ q, listeners q = listeners p)); [|done].
  intros q cb Hq. by rewrite Hf.
Qed.

Lemma listeners_dispatch tg ty arg p :
  listeners (dispatch tg ty arg p) = listeners p.
Proof.
  unfold dispatch.
  apply (fold_left_preserves (λ q, listeners q = listeners p)); [|done].
  intros q l Hq. destruct (listens tg ty l); [|exact Hq].
  by rewrite listeners_run_callback.
Qed.

Lemma listeners_tick p : listeners (tick p) = listeners p.
Proof.
  unfold tick. rewrite listeners_fold_callbacks; [reflexivity|].
  intros q cb. apply listeners_run_callback.
Qed.

Lemma listeners_step e p : listeners (step e p) = listeners p.
Proof.
  destruct e as [w| |data|id text|id|items|ms]; simpl.
  - by rewrite listeners_dispatch.
  - apply listeners_dispatch.
  - apply listeners_dispatch.
  - destruct (document p !! id); [|reflexivity].
    by rewrite listeners_dispatch.
  - destruct (document p !! id); [|reflexivity].
    by rewrite listeners_dispatch.
  - unfold fetch_resolved. by destruct (inflight p).
  - apply (iter_tick_preserves (λ q, listeners q = listeners p)); [|done].
    intros q Hq. by rewrite listeners_tick.
Qed.

Lemma listeners_run es p : listeners (run es p) = listeners p.
Proof.
  apply (fold_left_preserves (λ q, listeners q = listeners p)); [|done].
  intros q e Hq. by rewrite listeners_step.
Qed.

Lemma listeners_boot doc :
  listeners (boot doc) = registered (bool_decide (is_Some (doc !! "search"))).
Proof.
  unfold boot, script, searchInput. destruct (doc !! "search") as [v|] eqn:Hs.
  - by rewrite bool_decide_eq_true_2.
  - rewrite bool_decide_eq_false_2; [reflexivity|]. by intros [? ?].
Qed.

Lemma listeners_reachable doc es :
  ∃ b, listeners (run es (boot doc)) = registered b.
Proof. eexists. rewrite listeners_run. apply listeners_boot. Qed.

(** What each event does on a page that holds the script's listeners. *)
Lemma step_scroll b w p :
  listeners p = registered b →
  step (Scroll w) p = exec_calls (scroll_listener w) (set_window w p).
Proof.
  intros Hl. simpl. unfold dispatch. simpl listeners. rewrite Hl.
  by destruct b.
Qed.

Lemma step_connect b p :
  listeners p = registered b →
  step Connect p = exec_calls connect_handler p.
Proof. intros Hl. simpl. unfold dispatch. rewrite Hl. by destruct b. Qed.

Lemma step_new_blobs b data p :
  listeners p = registered b →
  step (NewBlobs data) p = run_callback NewBlobsHandler data p.
Proof. intros Hl. simpl. unfold dispatch. rewrite Hl. by destruct b. Qed.

(** ** The scroll listener *)

Lemma invocations_loadMoreBlobs p :
  invocations_of_loadMoreBlobs (exec_call LoadMoreBlobs p)
  = S (invocations_of_loadMoreBlobs p).
Proof.
  unfold invocations_of_loadMoreBlobs, exec_call, loadMoreBlobs. simpl.
  destruct (loading p); simpl; rewrite !omap_app, !length_app; simpl; lia.
Qed.

(** C2. On every scroll event, whatever happened before, the pagination
    routine is invoked (once) exactly when
    [innerHeight + scrollY >= offsetHeight - 1000], and is not invoked
    exactly when the sum is below that threshold. *)
Theorem scroll_invokes_loadMoreBlobs_iff doc es w :
  let p := run es (boot doc) in
  let before := invocations_of_loadMoreBlobs p in
  let after := invocations_of_loadMoreBlobs (step (Scroll w) p) in
  (after = S before ↔ innerHeight w + scrollY w >= offsetHeight w - 1000) ∧
  (after = before ↔ innerHeight w + scrollY w < offsetHeight w - 1000).
Proof.
  intros p before after. subst before after.
  destruct (listeners_reachable doc es) as [b Hl]. fold p in Hl.
  rewrite (step_scroll b) by exact Hl.
  unfold scroll_listener.
  destruct (innerHeight w + scrollY w >=? offsetHeight w - 1000) eqn:Hc.
  - change (exec_calls [LoadMoreBlobs] (set_window w p))
      with (exec_call LoadMoreBlobs (set_window w p)).
    rewrite invocations_loadMoreBlobs.
    change (invocations_of_loadMoreBlobs (set_window w p))
      with (invocations_of_loadMoreBlobs p).
    apply Z.geb_le in Hc. split; split; intros; lia.
  - change (exec_calls [] (set_window w p)) with (set_window w p).
    change (invocations_of_loadMoreBlobs (set_window w p))
      with (invocations_of_loadMoreBlobs p).
    assert (¬ (offsetHeight w - 1000 ≤ innerHeight w + scrollY w))
      by (rewrite <- Z.geb_le; congruence).
    split; split; intros; lia.
Qed.

(** ** The update timer of the live feed channel *)




Lemma boot_quiet doc :
  intervals (boot doc) = [] ∧ debounce_timer (boot doc) = None ∧
  log (boot doc) = map Called (script doc) ∧ document (boot doc) = doc ∧
  feed (boot doc) = [].
Proof. unfold boot, script, searchInput. by destruct (doc !! "search"). Qed.

Lemma emitted_boot signal doc : emitted signal (boot doc) = 0%nat.
Proof.
  unfold emitted. destruct (boot_quiet doc) as (_ & _ & -> & _).
  unfold script, searchInput. by destruct (doc !! "search").
Qed.



(** ** The [new_blobs] handler *)

Lemma new_blobs_handler_array fields items :
  fields !! "blobs" = Some (JArr items) →
  new_blobs_handler (JObj fields)
  = if 0 <? Z.of_nat (length items)
    then Ok [UpdateFeed (JArr items)] else Ok [].
Proof. intros Hb. unfold new_blobs_handler. simpl. by rewrite Hb. Qed.

Lemma new_blobs_handler_absent fields :
  fields !! "blobs" = None →
  new_blobs_handler (JObj fields) = Throw TypeError.
Proof. intros Hb. unfold new_blobs_handler. simpl. by rewrite Hb. Qed.

(** C4. A [new_blobs] event whose [blobs] is the empty sequence makes the
    handler call nothing, and leaves the page exactly as it was: no call
    of the feed-update routine, no change of the feed, no exception. *)
Theorem empty_new_blobs_is_a_no_op doc es fields :
  fields !! "blobs" = Some (JArr []) →
  let p := run es (boot doc) in
  new_blobs_handler (JObj fields) = Ok [] ∧
  step (NewBlobs (JObj fields)) p = p.
Proof.
  intros Hb p.
  assert (Hh : new_blobs_handler (JObj fields) = Ok [])
    by (by rewrite (new_blobs_handler_array fields [])).
  split; [exact Hh|].
  destruct (listeners_reachable doc es) as [b Hl]. fold p in Hl.
  rewrite (step_new_blobs b) by exact Hl.
  unfold run_callback. by rewrite Hh.
Qed.

(** C5. A [new_blobs] event carrying a non-empty sequence makes the
    handler call the feed-update routine once, with exactly that
    sequence; the routine renders every item, in the order received, in
    front of the feed. *)
Theorem new_blobs_updates_feed doc es fields items :
  fields !! "blobs" = Some (JArr items) → items ≠ [] →
  let p := run es (boot doc) in
  let q := step (NewBlobs (JObj fields)) p in
  new_blobs_handler (JObj fields) = Ok [UpdateFeed (JArr items)] ∧
  updateFeed_calls q = (updateFeed_calls p ++ [JArr items])%list ∧
  feed q = (items ++ feed p)%list ∧
  uncaught q = uncaught p.
Proof.
  intros Hb Hne p q.
  assert (Hh : new_blobs_handler (JObj fields) = Ok [UpdateFeed (JArr items)]).
  { rewrite (new_blobs_handler_array fields items) by exact Hb.
    destruct items as [|x items]; [done|]. simpl length.
    by rewrite (proj2 (Z.ltb_lt 0 _)) by lia. }
  split; [exact Hh|]. subst q.
  destruct (listeners_reachable doc es) as [b Hl]. fold p in Hl.
  rewrite (step_new_blobs b) by exact Hl.
  unfold run_callback. rewrite Hh.
  unfold updateFeed_calls, uncaught. simpl.
  rewrite !omap_app. simpl. by rewrite app_nil_r.
Qed.

(** C10. A payload without a [blobs] field makes the handler throw a
    TypeError on [data.blobs.length]: the exception is uncaught, nothing
    is rendered and the feed-update routine is not called.  A payload
    whose [blobs] is a sequence never throws. *)
Theorem new_blobs_without_blobs_throws doc es fields :
  fields !! "blobs" = None →
  let p := run es (boot doc) in
  let q := step (NewBlobs (JObj fields)) p in
  new_blobs_handler (JObj fields) = Throw TypeError ∧
  uncaught q = (uncaught p ++ [TypeError])%list ∧
  updateFeed_calls q = updateFeed_calls p ∧
  feed q = feed p ∧
  ∀ fields' items,
    fields' !! "blobs" = Some (JArr items) →
    new_blobs_handler (JObj fields') ≠ Throw TypeError.
Proof.
  intros Hb p q.
  pose proof (new_blobs_handler_absent fields Hb) as Hh.
  split; [exact Hh|]. subst q.
  destruct (listeners_reachable doc es) as [b Hl]. fold p in Hl.
  rewrite (step_new_blobs b) by exact Hl.
  unfold run_callback. rewrite Hh.
  unfold updateFeed_calls, uncaught. simpl.
  rewrite !omap_app. simpl. rewrite app_nil_r.
  repeat split.
  intros fields' items Hb'. rewrite (new_blobs_handler_array _ _ Hb').
  by destruct (0 <? _).
Qed.

(** ** The search box *)

(** C8. When the document has no element with id [search], the script
    registers its three other listeners and nothing else: no listener on
    any element, no debounce timer, no exception. *)
Theorem absent_search_input_is_skipped doc :
  doc !! "search" = None →
  script doc = [AddEventListener Window "scroll" ScrollListener;
                AddEventListener Socket "connect" ConnectHandler;
                AddEventListener Socket "new_blobs" NewBlobsHandler] ∧
  (∀ id, listeners_on (Element id) (boot doc) = []) ∧
  debounce_timer (boot doc) = None ∧
  uncaught (boot doc) = [].
Proof.
  intros Hs. unfold boot, script, searchInput. rewrite Hs. by repeat split.
Qed.

Lemma step_change b id p :
  listeners p = registered b → step (Change id) p = p.
Proof.
  intros Hl. simpl. destruct (document p !! id); [|reflexivity].
  unfold dispatch. rewrite Hl. destruct b; simpl.
  - unfold listens. simpl. by rewrite andb_false_r.
  - reflexivity.
Qed.

(** C9, as the code has it. When the search element exists the script
    registers exactly one listener on it, for the [input] event type,
    holding the handler debounced by 500 ms; a [change] event on the
    element runs nothing. *)
Theorem search_listener_is_on_input doc es :
  is_Some (doc !! "search") →
  listeners_on (Element "search") (boot doc)
  = [("input", Debounced HandleSearch 500)] ∧
  step (Change "search") (run es (boot doc)) = run es (boot doc).
Proof.
  intros [v Hs]. split.
  - unfold boot, script, searchInput. by rewrite Hs.
  - destruct (listeners_reachable doc es) as [b Hl].
    by apply (step_change b).
Qed.

(** ** Timers of the script under the clock *)

Lemma append_log_nil p : append_log [] p = p.
Proof. destruct p. unfold append_log. simpl. by rewrite app_nil_r. Qed.

Lemma append_log_app d1 d2 p :
  append_log d2 (append_log d1 p) = append_log (d1 ++ d2) p.
Proof. unfold append_log. simpl. by rewrite <- app_assoc. Qed.

Lemma fold_timer_callbacks cbs : ∀ s,
  Forall (λ cb, cb = RequestUpdateTimer ∨ cb = HandleSearch) cbs →
  fold_left (λ q cb, run_callback cb JUndefined q) cbs s
  = append_log (map (timer_effect (document s)) cbs) s.
Proof.
  induction cbs as [|cb cbs IH]; intros s Hcbs.
  - symmetry. apply append_log_nil.
  - apply Forall_cons in Hcbs as [Hcb Hcbs]. simpl fold_left.
    rewrite IH by exact Hcbs.
    assert (Hrun : run_callback cb JUndefined s
                   = append_log [timer_effect (document s) cb] s)
      by (by destruct Hcb as [-> | ->]).
    rewrite Hrun, append_log_app. reflexivity.
Qed.

Lemma due_update_timers ts :
  Forall (λ t, period t = 30000%N ∧ i_callback t = RequestUpdateTimer) ts →
  Forall (λ cb, cb = RequestUpdateTimer ∨ cb = HandleSearch)
    (concat (map snd (map tick_interval ts))) ∧
  Forall (λ t, period t = 30000%N ∧ i_callback t = RequestUpdateTimer)
    (map fst (map tick_interval ts)).
Proof.
  induction 1 as [|t ts [Hp Hc] _ [IH1 IH2]]; [by split|].
  simpl. unfold tick_interval at 1 3.
  destruct (N.pred (remaining t) =? 0)%N; simpl; split;
    try (apply Forall_cons; split); try done.
  by left.
Qed.

Lemma due_debounce t :
  (t = None ∨ ∃ r, t = Some (r, HandleSearch)) →
  Forall (λ cb, cb = RequestUpdateTimer ∨ cb = HandleSearch)
    (tick_debounce t).2 ∧
  ((tick_debounce t).1 = None ∨
   ∃ r, (tick_debounce t).1 = Some (r, HandleSearch)).
Proof.
  intros [-> | [r ->]]; simpl; [by split; [|left]|].
  destruct (N.pred r =? 0)%N; simpl; split; eauto.
Qed.

(** A tick on a page of the script moves the timers and logs what the
    due ones do; nothing else changes. *)
Lemma tick_shape p :
  timers_ok p →
  tick p
  = append_log
      (map (timer_effect (document p))
         (concat (map snd (map tick_interval (intervals p)))
          ++ (tick_debounce (debounce_timer p)).2))
      (set_debounce_timer (tick_debounce (debounce_timer p)).1
         (set_intervals (map fst (map tick_interval (intervals p))) p)).
Proof.
  intros [Hi Hd]. unfold tick.
  rewrite fold_timer_callbacks; [reflexivity|].
  apply Forall_app. split.
  - by apply due_update_timers.
  - by apply due_debounce.
Qed.

Lemma timers_ok_tick p : timers_ok p → timers_ok (tick p).
Proof.
  intros Hok. rewrite tick_shape by exact Hok. destruct Hok as [Hi Hd].
  split; simpl.
  - by apply due_update_timers.
  - by apply due_debounce.
Qed.

Lemma script_page_tick b p : script_page b p → script_page b (tick p).
Proof.
  intros [Hl Hok]. split; [by rewrite listeners_tick|by apply timers_ok_tick].
Qed.

Lemma script_page_wait b ms p :
  script_page b p → script_page b (N.iter ms tick p).
Proof. intros Hp. apply iter_tick_preserves; [apply script_page_tick|done]. Qed.

Lemma wait_log b ms p :
  script_page b p →
  ∃ d, log (N.iter ms tick p) = (log p ++ d)%list ∧ Forall is_timer_effect d.
Proof.
  intros Hp. induction ms as [|n IH] using N.peano_ind.
  - exists []. simpl. by rewrite app_nil_r.
  - destruct IH as (d & Hd & Hall). rewrite N.iter_succ.
    pose proof (script_page_wait b n p Hp) as [_ Hok].
    rewrite tick_shape by exact Hok. simpl. rewrite Hd, <- app_assoc.
    eexists. split; [reflexivity|].
    apply Forall_app. split; [exact Hall|].
    apply Forall_map, Forall_true. intros cb.
    destruct cb; simpl; unfold is_timer_effect; eauto.
Qed.

(** ** Events on a page of the script *)

Lemma step_keystroke_any b id text p :
  listeners p = registered b →
  step (Keystroke id text) p
  = match document p !! id with
    | Some _ =>
        let q := set_document (<[id := text]> (document p)) p in
        if b && String.eqb id "search" then debounce HandleSearch 500 q else q
    | None => p
    end.
Proof.
  intros Hl. simpl. destruct (document p !! id); [|reflexivity].
  unfold dispatch. simpl listeners. rewrite Hl.
  destruct b; simpl; [|reflexivity].
  unfold listens. simpl. by destruct (String.eqb id "search").
Qed.

(** What an event other than the passing of time does to the log and to
    the timers. *)
Lemma step_shape b e p :
  script_page b p → (∀ ms, e ≠ Wait ms) →
  log (step e p) = (log p ++ event_log e p)%list ∧
  script_page b (step e p) ∧
  intervals (step e p)
  = (intervals p ++ match e with
                    | Connect => [update_timer 30000]
                    | _ => []
                    end)%list ∧
  (b = false → debounce_timer (step e p) = debounce_timer p).
Proof.
  intros [Hl [Hi Hd]] Hw.
  destruct e as [w| |data|id text|id|items|ms].
  - rewrite (step_scroll b) by exact Hl. unfold event_log, scroll_listener.
    destruct (_ >=? _).
    + change (exec_calls [LoadMoreBlobs] (set_window w p))
        with (loadMoreBlobs
                (record_effect (Called LoadMoreBlobs) (set_window w p))).
      unfold loadMoreBlobs. simpl. destruct (loading p); simpl.
      * rewrite app_nil_r. by repeat split.
      * rewrite <- app_assoc, app_nil_r. by repeat split.
    + simpl. rewrite !app_nil_r. by repeat split.
  - rewrite (step_connect b) by exact Hl. simpl.
    rewrite <- app_assoc. repeat split; try done.
    apply Forall_app. split; [exact Hi|]. by apply Forall_singleton.
  - rewrite (step_new_blobs b) by exact Hl. unfold run_callback, event_log.
    destruct (new_blobs_handler_cases data) as [-> | [-> | [v ->]]].
    + simpl. rewrite app_nil_r. by repeat split.
    + simpl. rewrite !app_nil_r. by repeat split.
    + change (exec_calls [UpdateFeed v] p)
        with (updateFeed v (record_effect (Called (UpdateFeed v)) p)).
      destruct v; simpl; rewrite app_nil_r; by repeat split.
  - rewrite (step_keystroke_any b) by exact Hl. simpl event_log.
    rewrite app_nil_r.
    destruct (document p !! id); [|by rewrite app_nil_r; repeat split].
    destruct b; simpl; [|by rewrite app_nil_r; repeat split].
    destruct (String.eqb id "search"); simpl; rewrite app_nil_r;
      repeat split; try done.
    right. by eexists.
  - rewrite (step_change b) by exact Hl. simpl. rewrite !app_nil_r.
    by repeat split.
  - simpl. unfold fetch_resolved.
    destruct (inflight p); simpl; rewrite !app_nil_r; by repeat split.
  - by destruct (Hw ms).
Qed.

Lemma script_page_step b e p : script_page b p → script_page b (step e p).
Proof.
  intros Hp. destruct e as [w| |data|id text|id|items|ms];
    try (by apply step_shape).
  by apply script_page_wait.
Qed.

Lemma script_page_run b es p : script_page b p → script_page b (run es p).
Proof. apply fold_left_preserves. intros q e. apply script_page_step. Qed.

Lemma script_page_boot doc :
  script_page (bool_decide (is_Some (doc !! "search"))) (boot doc).
Proof.
  split; [apply listeners_boot|].
  destruct (boot_quiet doc) as (Hi & Hd & _). split.
  - rewrite Hi. constructor.
  - by left.
Qed.

(** An observation of the log that no timer contributes to is the
    observations its events contribute, in order. *)
Lemma observe_history {A} (f : effect → option A) (g : event → option A) :
  (∀ e, is_timer_effect e → f e = None) →
  (∀ e p, omap f (event_log e p) = option_list (g e)) →
  ∀ es b p, script_page b p →
    omap f (log (run es p)) = (omap f (log p) ++ omap g es)%list.
Proof.
  intros Hf Hg es. induction es as [|e es IH]; intros b p Hp.
  - simpl. by rewrite app_nil_r.
  - change (run (e :: es) p) with (run es (step e p)).
    rewrite (IH b) by (by apply script_page_step).
    assert (He : omap f (log (step e p))
                 = (omap f (log p) ++ option_list (g e))%list).
    { assert (Hcase : (∃ ms, e = Wait ms) ∨ ∀ ms, e ≠ Wait ms)
        by (destruct e; eauto).
      destruct Hcase as [[ms ->]|Hne].
      2: { destruct (step_shape b e p Hp Hne) as (-> & _).
           by rewrite omap_app, Hg. }
      destruct (wait_log b ms p Hp) as (d & Hd & Hall).
      simpl step. rewrite Hd, omap_app.
      assert (Hnone : omap f d = []).
      { clear Hd. induction Hall as [|x d Hx _ IHd]; [done|].
        simpl. by rewrite (Hf x Hx). }
      rewrite Hnone. specialize (Hg (Wait ms) p). simpl in Hg.
      by rewrite <- Hg. }
    rewrite He, <- app_assoc. f_equal. simpl. by destruct (g e).
Qed.

Lemma boot_log_registrations doc :
  Forall (λ e, ∃ tg ty cb, e = Called (AddEventListener tg ty cb))
    (log (boot doc)).
Proof.
  destruct (boot_quiet doc) as (_ & _ & -> & _).
  unfold script, searchInput.
  destruct (doc !! "search"); repeat constructor; eauto.
Qed.

Lemma observe_boot {A} (f : effect → option A) doc :
  (∀ tg ty cb, f (Called (AddEventListener tg ty cb)) = None) →
  omap f (log (boot doc)) = [].
Proof.
  intros Hf. pose proof (boot_log_registrations doc) as Hall.
  induction Hall as [|x d (tg & ty & cb & ->) _ IH]; [done|].
  simpl. by rewrite Hf.
Qed.

(** ** Properties of whole histories *)

(** After any history the registered listeners are those the script
    registered when it ran: the three of the window and the socket, and
    the one of the search box when the element was there.  No handler
    adds or removes a listener. *)
Theorem listeners_never_change doc es :
  listeners (run es (boot doc))
  = registered (bool_decide (is_Some (searchInput doc))).
Proof. rewrite listeners_run. apply listeners_boot. Qed.

Lemma new_blobs_handler_table data :
  new_blobs_handler data
  = if blobs_missing data || comparison_throws data then Throw TypeError
    else match feed_argument data with
         | Some blobs => Ok [UpdateFeed blobs]
         | None => Ok []
         end.
Proof.
  unfold new_blobs_handler.
  destruct data as [| |b|n|s|items|fields]; simpl; try done.
  destruct (fields !! "blobs") as [[| |b|n|s|items|fields']|]; simpl;
    try done.
  - by destruct s.
  - by destruct items.
  - destruct (fields' !! "length") as [len|]; simpl; [|done].
    by destruct (gt0 coerced_gt0 len) as [[]|[]].
Qed.

(** The handler of [new_blobs], by the shape of the payload.  It throws
    a TypeError when [data] or [data.blobs] is [undefined] or [null], and
    when [blobs] is an object whose [length] the comparison cannot
    convert to a number.  Otherwise it calls [updateFeed] with
    [data.blobs], whatever that is, when its [length] is above zero (a
    non-empty string or array, an object with such a [length]), and calls
    nothing when it is not. *)
Theorem new_blobs_handler_by_shape data :
  new_blobs_handler data
  = if blobs_missing data || comparison_throws data then Throw TypeError
    else match feed_argument data with
         | Some blobs => Ok [UpdateFeed blobs]
         | None => Ok []
         end.
Proof. apply new_blobs_handler_table. Qed.

Lemma feed_argument_present data blobs :
  feed_argument data = Some blobs →
  blobs_missing data || comparison_throws data = false.
Proof.
  destruct data as [| |b|n|s|items|fields]; simpl; try done.
  destruct (fields !! "blobs") as [[| |b|n|s|items|fields']|]; simpl;
    try done.
  destruct (fields' !! "length") as [len|]; [|done].
  by destruct (gt0 coerced_gt0 len) as [[]|[]].
Qed.

Lemma omap_payloads {A} (h : jsval → option A) es :
  omap (λ e, match e with NewBlobs data => h data | _ => None end) es
  = omap h (payloads es).
Proof.
  unfold payloads. induction es as [|e es IH]; [done|].
  destruct e; simpl; try exact IH.
  destruct (h data); simpl; [f_equal|]; exact IH.
Qed.

(** After any history, the exceptions left uncaught are one TypeError
    for each [new_blobs] event whose payload lacks [blobs] or carries a
    [blobs] whose [length] the comparison cannot convert, in order of
    arrival: no other event and no timer makes a handler throw. *)
Theorem uncaught_only_from_unreadable_payloads doc es :
  uncaught (run es (boot doc))
  = omap (λ data, if blobs_missing data || comparison_throws data
                  then Some TypeError else None)
      (payloads es).
Proof.
  unfold uncaught. rewrite <- omap_payloads.
  rewrite observe_history
    with (g := λ e, match e with
                    | NewBlobs data =>
                        if blobs_missing data || comparison_throws data
                        then Some TypeError else None
                    | _ => None
                    end)
         (b := bool_decide (is_Some (doc !! "search")));
    [| | |apply script_page_boot].
  - by rewrite observe_boot.
  - by intros e [-> | [q ->]].
  - intros e p. destruct e as [w| |data|id text|id|items|ms]; try done.
    + simpl. destruct (_ >=? _); [|done]. by destruct (loading p).
    + simpl. rewrite new_blobs_handler_table.
      destruct (blobs_missing data || comparison_throws data); [done|].
      by destruct (feed_argument data).
Qed.

(** After any history, the calls of [updateFeed] are those of its
    [new_blobs] events, in order of arrival, each with the [blobs] of its
    payload: no other event and no timer calls it, and a payload with
    nothing to show calls nothing. *)
Theorem updateFeed_called_once_per_payload doc es :
  updateFeed_calls (run es (boot doc)) = omap feed_argument (payloads es).
Proof.
  unfold updateFeed_calls. rewrite <- omap_payloads.
  rewrite observe_history
    with (g := λ e, match e with
                    | NewBlobs data => feed_argument data
                    | _ => None
                    end)
         (b := bool_decide (is_Some (doc !! "search")));
    [| | |apply script_page_boot].
  - by rewrite observe_boot.
  - by intros e [-> | [q ->]].
  - intros e p. destruct e as [w| |data|id text|id|items|ms]; try done.
    + simpl. destruct (_ >=? _); [|done]. by destruct (loading p).
    + simpl. rewrite new_blobs_handler_table.
      destruct (feed_argument data) as [v|] eqn:Hv.
      * by rewrite (feed_argument_present data v Hv).
      * by destruct (blobs_missing data || comparison_throws data).
Qed.

Lemma near_end_test w :
  (innerHeight w + scrollY w >=? offsetHeight w - 1000)
  = bool_decide (near_end w).
Proof.
  unfold near_end. destruct (_ >=? _) eqn:Hc; symmetry.
  - apply bool_decide_eq_true_2. apply Z.geb_le in Hc. lia.
  - apply bool_decide_eq_false_2. intros H.
    assert (offsetHeight w - 1000 ≤ innerHeight w + scrollY w) by lia.
    apply Z.geb_le in H0. congruence.
Qed.

Lemma invocations_history b es p :
  script_page b p →
  invocations_of_loadMoreBlobs (run es p)
  = (invocations_of_loadMoreBlobs p + length (loading_scrolls es))%nat.
Proof.
  intros Hp. unfold invocations_of_loadMoreBlobs.
  rewrite observe_history
    with (g := λ e, match e with
                    | Scroll w => if bool_decide (near_end w) then Some tt
                                  else None
                    | _ => None
                    end)
         (b := b); [| | |exact Hp].
  - rewrite length_app. f_equal. unfold loading_scrolls.
    induction es as [|e es IH]; [done|].
    destruct e as [w| |data|id text|id|items|ms]; simpl; try exact IH.
    destruct (bool_decide (near_end w)); simpl; [f_equal|]; exact IH.
  - by intros e [-> | [q ->]].
  - intros e q. destruct e as [w| |data|id text|id|items|ms]; try done.
    + simpl. rewrite near_end_test.
      destruct (bool_decide (near_end w)); [|done]. by destruct (loading q).
    + simpl. destruct (new_blobs_handler_cases data) as [-> | [-> | [v ->]]];
        done.
Qed.

(** After any history [loadMoreBlobs] has been invoked once for every
    scroll event that met the threshold, however fast they came, and
    for nothing else: the listener itself neither skips nor delays. *)
Theorem loadMoreBlobs_invoked_per_qualifying_scroll doc es :
  invocations_of_loadMoreBlobs (run es (boot doc))
  = length (loading_scrolls es).
Proof.
  rewrite (invocations_history _ es _ (script_page_boot doc)).
  unfold invocations_of_loadMoreBlobs at 1. by rewrite observe_boot.
Qed.

(** On a document whose body is at most 1000 pixels taller than the
    window every scroll event invokes [loadMoreBlobs], wherever the page
    is scrolled to. *)
Theorem short_document_loads_on_every_scroll doc es ws :
  Forall (λ w, offsetHeight w ≤ innerHeight w + 1000 ∧ 0 ≤ scrollY w) ws →
  invocations_of_loadMoreBlobs (run (map Scroll ws) (run es (boot doc)))
  = (invocations_of_loadMoreBlobs (run es (boot doc)) + length ws)%nat.
Proof.
  intros Hws.
  rewrite (invocations_history _ (map Scroll ws) _
             (script_page_run _ es _ (script_page_boot doc))).
  f_equal. rewrite <- (length_map Scroll ws). unfold loading_scrolls.
  induction Hws as [|w ws [Hh Hy] _ IH]; [done|].
  simpl. rewrite bool_decide_eq_true_2 by (unfold near_end; lia).
  simpl. f_equal. exact IH.
Qed.

(** ** Update timers over whole histories *)

Lemma age_succ a :
  if (N.pred (time_left a) =? 0)%N
  then time_left (N.succ a) = 30000%N ∧
       (N.succ a / 30000 = N.succ (a / 30000))%N
  else time_left (N.succ a) = N.pred (time_left a) ∧
       (N.succ a / 30000 = a / 30000)%N.
Proof.
  unfold time_left.
  pose proof (N.div_mod a 30000 ltac:(done)) as Ha.
  pose proof (N.mod_lt a 30000 ltac:(done)) as Hm.
  set (q := (a / 30000)%N) in *. set (m := (a mod 30000)%N) in *.
  clearbody q m.
  destruct (N.pred (30000 - m) =? 0)%N eqn:Hp.
  - apply N.eqb_eq in Hp.
    rewrite <- (N.mod_unique (N.succ a) 30000 (N.succ q) 0) by lia.
    rewrite <- (N.div_unique (N.succ a) 30000 (N.succ q) 0) by lia.
    split; [reflexivity|lia].
  - apply N.eqb_neq in Hp.
    rewrite <- (N.mod_unique (N.succ a) 30000 q (N.succ m)) by lia.
    rewrite <- (N.div_unique (N.succ a) 30000 q (N.succ m)) by lia.
    split; lia.
Qed.

Lemma emitted_append_log d p :
  emitted "request_update" (append_log d p)
  = (emitted "request_update" p + emits d)%nat.
Proof. unfold emitted, emits. simpl. by rewrite omap_app, length_app. Qed.

Lemma emits_app d1 d2 : emits (d1 ++ d2) = (emits d1 + emits d2)%nat.
Proof. unfold emits. by rewrite omap_app, length_app. Qed.

Lemma emits_event_log e p : emits (event_log e p) = 0%nat.
Proof.
  destruct e as [w| |data|id text|id|items|ms]; try done.
  - simpl. destruct (_ >=? _); [|done]. by destruct (loading p).
  - simpl. by destruct (new_blobs_handler_cases data) as [-> | [-> | [v ->]]].
Qed.

Lemma tick_aged_timer a :
  ∃ due : bool,
    tick_interval (update_timer (time_left a))
    = (update_timer (time_left (N.succ a)),
       if due then [RequestUpdateTimer] else []) ∧
    N.to_nat (N.succ a / 30000)
    = (N.to_nat (a / 30000) + if due then 1 else 0)%nat.
Proof.
  exists (N.pred (time_left a) =? 0)%N.
  pose proof (age_succ a) as Ha. unfold tick_interval. simpl.
  destruct (N.pred (time_left a) =? 0)%N; destruct Ha as [-> ->];
    split; try reflexivity; lia.
Qed.

Lemma tick_aged_timers doc ages :
  map fst (map tick_interval (map (λ a, update_timer (time_left a)) ages))
  = map (λ a, update_timer (time_left a)) (map N.succ ages) ∧
  (sum_list_with (λ a, N.to_nat (a / 30000)) ages
   + emits (map (timer_effect doc)
              (concat (map snd (map tick_interval
                 (map (λ a, update_timer (time_left a)) ages))))))%nat
  = sum_list_with (λ a, N.to_nat (a / 30000)) (map N.succ ages).
Proof.
  induction ages as [|a ages [IH1 IH2]]; [done|].
  destruct (tick_aged_timer a) as (due & Ht & Hs).
  cbn [map concat sum_list_with]. rewrite Ht. cbn [fst snd].
  rewrite IH1, map_app, emits_app, <- IH2, Hs.
  split; [reflexivity|]. destruct due.
  - change (emits (map (timer_effect doc) [RequestUpdateTimer])) with 1%nat.
    lia.
  - change (emits (map (timer_effect doc) [])) with 0%nat. lia.
Qed.

Lemma tick_aged ages p :
  timers_ok p → aged ages p → aged (map N.succ ages) (tick p).
Proof.
  intros Hok [Hi He]. rewrite tick_shape by exact Hok.
  destruct (tick_aged_timers (document p) ages) as [H1 H2].
  split.
  - simpl. by rewrite Hi.
  - rewrite emitted_append_log, map_app, emits_app. simpl.
    change (emitted "request_update" (set_debounce_timer _ _))
      with (emitted "request_update" p).
    rewrite He, Hi, <- H2.
    assert (Hd : emits (map (timer_effect (document p))
                          (tick_debounce (debounce_timer p)).2) = 0%nat).
    { destruct Hok as [_ [-> | [r ->]]]; simpl; [done|].
      by destruct (N.pred r =? 0)%N. }
    rewrite Hd. lia.
Qed.

Lemma wait_aged b ms ages p :
  script_page b p → aged ages p →
  aged (map (N.add ms) ages) (N.iter ms tick p).
Proof.
  intros Hp Ha. induction ms as [|n IH] using N.peano_ind.
  - simpl. by rewrite (map_ext _ id), map_id by done.
  - rewrite N.iter_succ.
    rewrite (map_ext _ (λ a, N.succ (N.add n a)))
      by (intros a; apply N.add_succ_l).
    rewrite <- (map_map (N.add n) N.succ).
    apply tick_aged; [|exact IH].
    by apply (script_page_wait b n p).
Qed.

Lemma step_aged b e ages p :
  script_page b p → aged ages p → aged (age_step ages e) (step e p).
Proof.
  intros Hp [Hi He].
  assert (Hcase : (∃ ms, e = Wait ms) ∨ ∀ ms, e ≠ Wait ms)
    by (destruct e; eauto).
  destruct Hcase as [[ms ->]|Hne]; [by apply (wait_aged b)|].
  destruct (step_shape b e p Hp Hne) as (Hlog & _ & Hint & _).
  assert (Hem : emitted "request_update" (step e p)
                = emitted "request_update" p).
  { unfold emitted in *. rewrite Hlog, omap_app, length_app.
    pose proof (emits_event_log e p) as H0. unfold emits in H0.
    rewrite H0. lia. }
  split.
  - rewrite Hint, Hi.
    destruct e; try (exfalso; by eapply Hne); simpl; rewrite ?app_nil_r;
      try done.
    by rewrite map_app.
  - rewrite Hem, He.
    destruct e; try (exfalso; by eapply Hne); simpl; try done.
    rewrite sum_list_with_app. simpl. lia.
Qed.

Lemma run_aged b es : ∀ ages p,
  script_page b p → aged ages p →
  aged (fold_left age_step es ages) (run es p).
Proof.
  induction es as [|e es IH]; intros ages p Hp Ha; [exact Ha|].
  simpl. apply IH; [by apply script_page_step|by apply (step_aged b)].
Qed.

Lemma history_aged doc es : aged (timer_ages es) (run es (boot doc)).
Proof.
  apply (run_aged _ es [] (boot doc) (script_page_boot doc)).
  destruct (boot_quiet doc) as (Hi & _). split; [by rewrite Hi|].
  apply emitted_boot.
Qed.

Lemma length_ages es : ∀ ages,
  length (fold_left age_step es ages) = (length ages + connects es)%nat.
Proof.
  unfold connects.
  induction es as [|e es IH]; intros ages; [simpl; lia|].
  simpl fold_left. rewrite IH.
  destruct e; cbn; rewrite ?length_app, ?length_map; cbn; lia.
Qed.

(** After any history as many update timers are running as the socket
    has connected: each connect starts one more, each with a period of
    30 seconds, and nothing ever stops one. *)
Theorem one_update_timer_per_connect doc es :
  length (intervals (run es (boot doc))) = connects es ∧
  Forall (λ t, period t = 30000%N ∧ i_callback t = RequestUpdateTimer)
    (intervals (run es (boot doc))).
Proof.
  split.
  - destruct (history_aged doc es) as [-> _].
    rewrite length_map. apply (length_ages es []).
  - by destruct (script_page_run _ es _ (script_page_boot doc))
      as [_ [Hi _]].
Qed.

(** After any history the [request_update] signals emitted are, added
    up over the connects, one for every full 30 seconds that have passed
    since that connect: scrolling, payloads, typing and fetches neither
    delay nor trigger a signal. *)
Theorem request_updates_over_history doc es :
  emitted "request_update" (run es (boot doc))
  = sum_list_with (λ age, N.to_nat (age / 30000)) (timer_ages es).
Proof. by destruct (history_aged doc es) as [_ ->]. Qed.

Lemma ages_of_connects k : ∀ ages,
  fold_left age_step (replicate k Connect) ages
  = (ages ++ replicate k 0%N)%list.
Proof.
  induction k as [|k IH]; intros ages; simpl; [by rewrite app_nil_r|].
  rewrite IH, <- app_assoc. reflexivity.
Qed.

(** When the socket connects [k] times in a row (reconnections), [k]
    timers run side by side: after [ms] milliseconds [k] signals have
    been emitted for every full 30 seconds. *)
Theorem reconnections_multiply_request_updates doc k ms :
  emitted "request_update"
    (run (replicate k Connect ++ [Wait ms]) (boot doc))
  = (k * N.to_nat (ms / 30000))%nat.
Proof.
  destruct (history_aged doc (replicate k Connect ++ [Wait ms])) as [_ ->].
  unfold timer_ages. rewrite fold_left_app, ages_of_connects.
  change (fold_left age_step [Wait ms] ([] ++ replicate k 0%N)%list)
    with (map (N.add ms) (replicate k 0%N)).
  induction k as [|k IH]; [done|].
  cbn [replicate map sum_list_with]. rewrite IH, N.add_0_r. lia.
Qed.

(** ** A page without a search box *)

Lemma due_update_timers_only ts :
  Forall (λ t, period t = 30000%N ∧ i_callback t = RequestUpdateTimer) ts →
  Forall (λ cb, cb = RequestUpdateTimer)
    (concat (map snd (map tick_interval ts))).
Proof.
  induction 1 as [|t ts [Hp Hc] _ IH]; [constructor|].
  simpl. unfold tick_interval at 1.
  destruct (N.pred (remaining t) =? 0)%N; simpl; [|exact IH].
  by constructor.
Qed.

Lemma search_idle_tick p : search_idle p → search_idle (tick p).
Proof.
  intros (Hp & Hd & Hs). split; [by apply script_page_tick|].
  destruct Hp as [_ Hok]. rewrite tick_shape by exact Hok.
  rewrite Hd. simpl. split; [reflexivity|].
  unfold searches in *. simpl. rewrite omap_app, Hs, app_nil_r. simpl.
  destruct Hok as [Hi _]. apply due_update_timers_only in Hi.
  induction Hi as [|cb cbs -> _ IH]; [done|]. exact IH.
Qed.

Lemma search_idle_step e p : search_idle p → search_idle (step e p).
Proof.
  intros Hidle.
  assert (Hcase : (∃ ms, e = Wait ms) ∨ ∀ ms, e ≠ Wait ms)
    by (destruct e; eauto).
  destruct Hcase as [[ms ->]|Hne].
  - simpl. by apply iter_tick_preserves; [apply search_idle_tick|].
  - destruct Hidle as (Hp & Hd & Hs).
    destruct (step_shape false e p Hp Hne) as (Hlog & Hp' & _ & Hd').
    split; [exact Hp'|]. split; [by rewrite Hd'|].
    unfold searches in *. rewrite Hlog, omap_app, Hs. simpl.
    destruct e as [w| |data|id text|id|items|ms]; try done.
    + simpl. destruct (_ >=? _); [|done]. by destruct (loading p).
    + simpl.
      by destruct (new_blobs_handler_cases data) as [-> | [-> | [v ->]]].
Qed.

(** When the document has no element with id [search] as the script
    runs, the search box stays dead whatever happens afterwards: no
    listener on any element, the debounce timer never armed, no search
    request ever issued. *)
Theorem absent_search_input_never_activates doc es :
  searchInput doc = None →
  (∀ id, listeners_on (Element id) (run es (boot doc)) = []) ∧
  debounce_timer (run es (boot doc)) = None ∧
  searches (run es (boot doc)) = [].
Proof.
  intros Hs.
  assert (Hidle : search_idle (run es (boot doc))).
  { apply (fold_left_preserves search_idle);
      [intros q e; apply search_idle_step|].
    pose proof (script_page_boot doc) as Hp.
    rewrite bool_decide_eq_false_2 in Hp
      by (unfold searchInput in Hs; rewrite Hs; by intros [? ?]).
    destruct (boot_quiet doc) as (_ & Hd & Hlog & _).
    split; [exact Hp|]. split; [exact Hd|].
    unfold searches. rewrite Hlog. unfold script. by rewrite Hs. }
  destruct Hidle as ([Hl _] & Hd & Hsr).
  split; [|by split].
  intros id. unfold listeners_on. by rewrite Hl.
Qed.

(** ** The debounce timer on a live page *)

Lemma step_keystroke p text :
  listeners p = registered true → is_Some (document p !! "search") →
  step (Keystroke "search" text) p
  = debounce HandleSearch 500
      (set_document (<["search" := text]> (document p)) p).
Proof.
  intros Hl [v Hv]. simpl. rewrite Hv. unfold dispatch. simpl. by rewrite Hl.
Qed.

Lemma last_cons {A} (x : A) l d : List.last (x :: l) d = List.last l x.
Proof.
  revert x d. induction l as [|y l IH]; intros x d; [reflexivity|].
  change (List.last (x :: y :: l) d) with (List.last (y :: l) d).
  by rewrite !IH.
Qed.

Lemma last_app_cons {A} (l1 : list A) x l2 d :
  List.last (l1 ++ x :: l2) d = List.last l2 x.
Proof.
  revert d. induction l1 as [|y l1 IH]; intros d.
  - apply last_cons.
  - rewrite <- app_comm_cons, last_cons. apply IH.
Qed.

Lemma fired_quiet_prefix pre : ∀ text keys,
  Forall (λ k, (k.1 < 500)%N) pre →
  fired text (pre ++ keys) = fired (List.last (map snd pre) text) keys.
Proof.
  induction pre as [|k pre IH]; intros text keys Hq; [reflexivity|].
  apply Forall_cons in Hq as [Hk Hq].
  change (fired text ((k :: pre) ++ keys))
    with ((if (500 <=? k.1)%N then [text] else [])
          ++ fired k.2 (pre ++ keys))%list.
  replace (500 <=? k.1)%N with false by (symmetry; apply N.leb_gt; exact Hk).
  rewrite app_nil_l, IH by exact Hq.
  change (map snd (k :: pre)) with (k.2 :: map snd pre).
  by rewrite last_cons.
Qed.

Lemma fired_length text keys :
  length (fired text keys) = length (filter (λ k, (500 ≤ k.1)%N) keys).
Proof.
  revert text. induction keys as [|k keys IH]; intros text; [reflexivity|].
  simpl. rewrite length_app, IH, filter_cons.
  destruct (500 <=? k.1)%N eqn:Hk.
  - apply N.leb_le in Hk. by rewrite decide_True.
  - apply N.leb_gt in Hk. rewrite decide_False by lia. reflexivity.
Qed.

Lemma searches_event_log e p :
  omap (λ x, match x with SearchRequest q => Some q | _ => None end)
    (event_log e p) = [].
Proof.
  destruct e as [w| |data|id text|id|items|ms]; try done.
  - simpl. destruct (_ >=? _); [|done]. by destruct (loading p).
  - simpl. by destruct (new_blobs_handler_cases data) as [-> | [-> | [v ->]]].
Qed.

(** A tick on a page of the script, as the search box sees it. *)
Lemma tick_search p :
  timers_ok p →
  document (tick p) = document p ∧
  debounce_timer (tick p) = (tick_debounce (debounce_timer p)).1 ∧
  searches (tick p)
  = (searches p ++ match (tick_debounce (debounce_timer p)).2 with
                   | [] => []
                   | _ :: _ => [default "" (document p !! "search")]
                   end)%list.
Proof.
  intros Hok. rewrite tick_shape by exact Hok. destruct Hok as [Hi Hd].
  split; [reflexivity|]. split; [reflexivity|].
  unfold searches. simpl. rewrite omap_app, map_app, omap_app.
  assert (Hnone : omap (λ x, match x with
                             | SearchRequest q => Some q
                             | _ => None
                             end)
                    (map (timer_effect (document p))
                       (concat (map snd (map tick_interval (intervals p)))))
                  = []).
  { apply due_update_timers_only in Hi.
    induction Hi as [|cb cbs -> _ IH]; [done|]. exact IH. }
  rewrite Hnone. simpl. f_equal.
  destruct Hd as [-> | [r ->]]; simpl; [done|].
  by destruct (N.pred r =? 0)%N.
Qed.

Lemma wait_document b ms p :
  script_page b p → document (N.iter ms tick p) = document p.
Proof.
  intros Hp. induction ms as [|n IH] using N.peano_ind; [done|].
  rewrite N.iter_succ.
  destruct (script_page_wait b n p Hp) as [_ Hok].
  destruct (tick_search _ Hok) as (-> & _). exact IH.
Qed.

Lemma wait_disarmed b ms p :
  script_page b p → debounce_timer p = None →
  debounce_timer (N.iter ms tick p) = None ∧
  searches (N.iter ms tick p) = searches p.
Proof.
  intros Hp Hd. induction ms as [|n [IHd IHs]] using N.peano_ind; [done|].
  rewrite N.iter_succ.
  destruct (script_page_wait b n p Hp) as [_ Hok].
  destruct (tick_search _ Hok) as (_ & -> & ->).
  rewrite IHd, IHs. simpl. by rewrite app_nil_r.
Qed.

(** A pause shorter than what is left on the timer only runs it down. *)
Lemma wait_armed_within b ms r p :
  script_page b p → debounce_timer p = Some (r, HandleSearch) → (ms < r)%N →
  debounce_timer (N.iter ms tick p) = Some ((r - ms)%N, HandleSearch) ∧
  searches (N.iter ms tick p) = searches p.
Proof.
  intros Hp Hd. induction ms as [|n IH] using N.peano_ind; intros Hlt.
  - simpl. by rewrite N.sub_0_r.
  - destruct IH as [IHd IHs]; [lia|]. rewrite N.iter_succ.
    destruct (script_page_wait b n p Hp) as [_ Hok].
    destruct (tick_search _ Hok) as (_ & -> & ->).
    rewrite IHd, IHs. simpl.
    destruct (N.pred (r - n) =? 0)%N eqn:Hz.
    + apply N.eqb_eq in Hz. lia.
    + simpl. rewrite app_nil_r. split; [|done]. do 2 f_equal. lia.
Qed.

(** A pause that reaches the end of the window fires the search once,
    with the text then in the input. *)
Lemma wait_armed_fires b ms r p :
  script_page b p → debounce_timer p = Some (r, HandleSearch) →
  (1 ≤ r ≤ ms)%N →
  debounce_timer (N.iter ms tick p) = None ∧
  searches (N.iter ms tick p)
  = (searches p ++ [default "" (document p !! "search")])%list.
Proof.
  intros Hp Hd [Hr Hms].
  replace ms with ((ms - r) + N.succ (r - 1))%N by lia.
  rewrite N.iter_add, N.iter_succ.
  destruct (wait_armed_within b (r - 1) r p Hp Hd) as [Hd1 Hs1]; [lia|].
  pose proof (wait_document b (r - 1) p Hp) as Hdoc1.
  pose proof (script_page_wait b (r - 1) p Hp) as Hp1.
  set (p1 := N.iter (r - 1) tick p) in *.
  destruct (tick_search p1 (proj2 Hp1)) as (Hdoc2 & Hd2 & Hs2).
  rewrite Hd1 in Hd2, Hs2. simpl in Hd2, Hs2.
  replace (N.pred (r - (r - 1)) =? 0)%N with true in Hd2, Hs2
    by (symmetry; apply N.eqb_eq; lia).
  simpl in Hd2, Hs2.
  destruct (wait_disarmed b (ms - r) (tick p1)) as [-> ->];
    [by apply script_page_tick|exact Hd2|].
  by rewrite Hs2, Hs1, Hdoc1.
Qed.

(** An event that is neither time passing nor a keystroke in the search
    box leaves the timer, the text of the box and the requests alone. *)
Lemma step_beside b e p :
  script_page b p → beside_search e → (∀ ms, e ≠ Wait ms) →
  debounce_timer (step e p) = debounce_timer p ∧
  document (step e p) !! "search" = document p !! "search" ∧
  searches (step e p) = searches p.
Proof.
  intros Hp Hbeside Hne.
  assert (Hs : searches (step e p) = searches p).
  { destruct (step_shape b e p Hp Hne) as (Hlog & _).
    unfold searches. rewrite Hlog, omap_app, searches_event_log.
    by rewrite app_nil_r. }
  split; [|split; [|exact Hs]]; clear Hs; destruct Hp as [Hl _];
    destruct e as [w| |data|id text|id|items|ms];
    try (exfalso; by eapply Hne).
  - rewrite (step_scroll b) by exact Hl. unfold scroll_listener.
    destruct (_ >=? _); [|done].
    change (exec_calls [LoadMoreBlobs] (set_window w p))
      with (loadMoreBlobs
              (record_effect (Called LoadMoreBlobs) (set_window w p))).
    unfold loadMoreBlobs. simpl. by destruct (loading p).
  - by rewrite (step_connect b) by exact Hl.
  - rewrite (step_new_blobs b) by exact Hl. unfold run_callback.
    destruct (new_blobs_handler_cases data) as [-> | [-> | [v ->]]];
      try done.
    change (exec_calls [UpdateFeed v] p)
      with (updateFeed v (record_effect (Called (UpdateFeed v)) p)).
    by destruct v.
  - rewrite (step_keystroke_any b) by exact Hl.
    destruct (document p !! id); [|done].
    destruct (String.eqb id "search") eqn:Hid.
    + apply String.eqb_eq in Hid. subst id. by destruct (Hbeside text).
    + by rewrite andb_false_r.
  - by rewrite (step_change b) by exact Hl.
  - simpl. unfold fetch_resolved. by destruct (inflight p).
  - rewrite (step_scroll b) by exact Hl. unfold scroll_listener.
    destruct (_ >=? _); [|done].
    change (exec_calls [LoadMoreBlobs] (set_window w p))
      with (loadMoreBlobs
              (record_effect (Called LoadMoreBlobs) (set_window w p))).
    unfold loadMoreBlobs. simpl. by destruct (loading p).
  - by rewrite (step_connect b) by exact Hl.
  - rewrite (step_new_blobs b) by exact Hl. unfold run_callback.
    destruct (new_blobs_handler_cases data) as [-> | [-> | [v ->]]];
      try done.
    change (exec_calls [UpdateFeed v] p)
      with (updateFeed v (record_effect (Called (UpdateFeed v)) p)).
    by destruct v.
  - rewrite (step_keystroke_any b) by exact Hl.
    destruct (document p !! id) eqn:Hdoc; [|done].
    destruct (String.eqb id "search") eqn:Hid.
    + apply String.eqb_eq in Hid. subst id. by destruct (Hbeside text).
    + apply String.eqb_neq in Hid. rewrite andb_false_r. simpl.
      by apply lookup_insert_ne.
  - by rewrite (step_change b) by exact Hl.
  - simpl. unfold fetch_resolved. by destruct (inflight p).
Qed.

(** Events beside the search box, while no search is waiting. *)
Lemma segment_disarmed b evs : ∀ p,
  script_page b p → Forall beside_search evs → debounce_timer p = None →
  document (run evs p) !! "search" = document p !! "search" ∧
  debounce_timer (run evs p) = None ∧
  searches (run evs p) = searches p.
Proof.
  induction evs as [|e evs IH]; intros p Hp Hall Hd; [done|].
  apply Forall_cons in Hall as [He Hall].
  change (run (e :: evs) p) with (run evs (step e p)).
  pose proof (script_page_step b e p Hp) as Hp1.
  assert (H1 : document (step e p) !! "search" = document p !! "search" ∧
               debounce_timer (step e p) = None ∧
               searches (step e p) = searches p).
  { assert (Hcase : (∃ ms, e = Wait ms) ∨ ∀ ms, e ≠ Wait ms)
      by (destruct e; eauto).
    destruct Hcase as [[ms ->]|Hne].
    - simpl. rewrite (wait_document b) by exact Hp.
      split; [done|]. by apply (wait_disarmed b).
    - destruct (step_beside b e p Hp He Hne) as (-> & -> & ->). by rewrite Hd. }
  destruct H1 as (Hdoc1 & Hd1 & Hs1).
  destruct (IH (step e p) Hp1 Hall Hd1) as (-> & -> & ->).
  by rewrite Hdoc1, Hs1.
Qed.

(** Events beside the search box, while a search is waiting with [r]
    milliseconds to go: it fires, once, if they take that long. *)
Lemma segment_armed b evs : ∀ p r,
  script_page b p → Forall beside_search evs →
  debounce_timer p = Some (r, HandleSearch) → (1 ≤ r)%N →
  document (run evs p) !! "search" = document p !! "search" ∧
  if (elapsed evs <? r)%N
  then debounce_timer (run evs p)
       = Some ((r - elapsed evs)%N, HandleSearch) ∧
       searches (run evs p) = searches p
  else debounce_timer (run evs p) = None ∧
       searches (run evs p)
       = (searches p ++ [default "" (document p !! "search")])%list.
Proof.
  induction evs as [|e evs IH]; intros p r Hp Hall Hd Hr.
  - simpl. replace (0 <? r)%N with true by (symmetry; apply N.ltb_lt; lia).
    by rewrite N.sub_0_r.
  - apply Forall_cons in Hall as [He Hall].
    change (run (e :: evs) p) with (run evs (step e p)).
    pose proof (script_page_step b e p Hp) as Hp1.
    assert (Hcase : (∃ ms, e = Wait ms) ∨ ∀ ms, e ≠ Wait ms)
      by (destruct e; eauto).
    destruct Hcase as [[ms ->]|Hne].
    + change (elapsed (Wait ms :: evs)) with (ms + elapsed evs)%N.
      pose proof (wait_document b ms p Hp) as Hdoc1.
      destruct (N.ltb_spec ms r) as [Hlt|Hge].
      * destruct (wait_armed_within b ms r p Hp Hd Hlt) as [Hd1 Hs1].
        destruct (IH (step (Wait ms) p) (r - ms)%N Hp1 Hall Hd1)
          as (Hdoc2 & H2); [lia|].
        simpl step in *. rewrite Hdoc2, Hdoc1. split; [done|].
        destruct (N.ltb_spec (elapsed evs) (r - ms)) as [Hlt2|Hge2].
        -- replace (ms + elapsed evs <? r)%N with true
             by (symmetry; apply N.ltb_lt; lia).
           destruct H2 as [-> ->]. split; [|done]. do 2 f_equal. lia.
        -- replace (ms + elapsed evs <? r)%N with false
             by (symmetry; apply N.ltb_ge; lia).
           destruct H2 as [-> ->]. by rewrite Hs1, Hdoc1.
      * destruct (wait_armed_fires b ms r p Hp Hd) as [Hd1 Hs1]; [lia|].
        destruct (segment_disarmed b evs (step (Wait ms) p) Hp1 Hall Hd1)
          as (Hdoc2 & Hd2 & Hs2).
        simpl step in *. rewrite Hdoc2, Hdoc1. split; [done|].
        replace (ms + elapsed evs <? r)%N with false
          by (symmetry; apply N.ltb_ge; lia).
        by rewrite Hd2, Hs2, Hs1.
    + destruct (step_beside b e p Hp He Hne) as (Hd1 & Hdoc1 & Hs1).
      rewrite Hd in Hd1.
      destruct (IH (step e p) r Hp1 Hall Hd1 Hr) as (Hdoc2 & H2).
      rewrite Hdoc2, Hdoc1. split; [done|].
      replace (elapsed (e :: evs)) with (elapsed evs)
        by (destruct e as [w| |data|id text|id|items|ms]; try done;
            by destruct (Hne ms)).
      rewrite Hs1, Hdoc1 in H2. exact H2.
Qed.

(** Typing on a page whose timer was just armed by a keystroke that left
    [text] in the input. *)
Lemma run_typing_among rest : ∀ p text,
  script_page true p →
  debounce_timer p = Some (500%N, HandleSearch) →
  document p !! "search" = Some text →
  Forall (λ k, Forall beside_search k.1) rest →
  let q := run (typing_among rest) p in
  script_page true q ∧
  debounce_timer q = Some (500%N, HandleSearch) ∧
  document q !! "search" = Some (List.last (map snd rest) text) ∧
  searches q = (searches p ++ fired text (gaps rest))%list.
Proof.
  induction rest as [|[between t] rest IH]; intros p text Hp Hd Hdoc Hall q.
  - subst q. simpl. by rewrite app_nil_r.
  - apply Forall_cons in Hall as [Hb Hall]. simpl in Hb.
    assert (Hq : q = run (typing_among rest)
                   (step (Keystroke "search" t) (run between p))).
    { subst q. unfold typing_among. simpl flat_map. unfold run.
      by rewrite !fold_left_app. }
    pose proof (script_page_run true between p Hp) as Hp1.
    destruct (segment_armed true between p 500 Hp Hb Hd) as (Hdoc1 & H1);
      [lia|].
    set (p1 := run between p) in *.
    assert (Hs1 : searches p1
                  = (searches p ++ if (500 <=? elapsed between)%N
                                   then [text] else [])%list).
    { destruct (N.ltb_spec (elapsed between) 500) as [Hlt|Hge].
      - replace (500 <=? elapsed between)%N with false
          by (symmetry; apply N.leb_gt; lia).
        destruct H1 as [_ ->]. by rewrite app_nil_r.
      - replace (500 <=? elapsed between)%N with true
          by (symmetry; apply N.leb_le; lia).
        destruct H1 as [_ ->]. by rewrite Hdoc. }
    assert (Hkey : step (Keystroke "search" t) p1
                   = debounce HandleSearch 500
                       (set_document (<["search" := t]> (document p1)) p1)).
    { apply step_keystroke; [by destruct Hp1|]. by rewrite Hdoc1, Hdoc. }
    pose proof (script_page_step true (Keystroke "search" t) p1 Hp1) as Hp2.
    set (p2 := step (Keystroke "search" t) p1) in *.
    destruct (IH p2 t Hp2) as (Hp' & Hd' & Hdoc' & Hs').
    + by rewrite Hkey.
    + rewrite Hkey. apply lookup_insert_eq.
    + exact Hall.
    + rewrite Hq. split; [exact Hp'|]. split; [exact Hd'|]. split.
      * rewrite Hdoc'. f_equal. simpl map. by rewrite last_cons.
      * rewrite Hs'. replace (searches p2) with (searches p1)
          by (by rewrite Hkey).
        rewrite Hs1, <- app_assoc. reflexivity.
Qed.

(** The search box, once there, stays in the document. *)
Lemma search_box_stays b es : ∀ p,
  script_page b p → is_Some (document p !! "search") →
  is_Some (document (run es p) !! "search").
Proof.
  induction es as [|e es IH]; intros p Hp Hs; [exact Hs|].
  change (run (e :: es) p) with (run es (step e p)).
  apply IH; [by apply script_page_step|].
  assert (Hcase : (∃ ms, e = Wait ms) ∨ (∃ text, e = Keystroke "search" text)
                  ∨ ((∀ ms, e ≠ Wait ms) ∧ beside_search e)).
  { destruct e as [w| |data|id text|id|items|ms]; eauto;
      try (right; right; by split).
    destruct (decide (id = "search")) as [->|Hid]; [eauto|].
    right. right. split; [done|]. intros text' [=]. done. }
  destruct Hcase as [[ms ->]|[[text ->]|[Hne Hbeside]]].
  - simpl. by rewrite (wait_document b).
  - destruct Hp as [Hl _]. rewrite (step_keystroke_any b) by exact Hl.
    destruct Hs as [v ->].
    destruct (b && _); simpl; rewrite lookup_insert_eq; eauto.
  - by destruct (step_beside b e p Hp Hbeside Hne) as (_ & -> & _).
Qed.

(** Typing in the search box of any page the script has been running
    on, then events beside the box: the requests fired between
    keystrokes, then the last text if the events that follow take 500 ms
    or more. *)
Lemma searches_after_typing doc es text rest after :
  is_Some (doc !! "search") →
  Forall (λ k, Forall beside_search k.1) rest →
  Forall beside_search after →
  let p := run es (boot doc) in
  let burst := Keystroke "search" text :: typing_among rest in
  debounce_timer (run burst p) = Some (500%N, HandleSearch) ∧
  searches (run (burst ++ after) p)
  = (searches p ++ fired text (gaps rest) ++
     if (500 <=? elapsed after)%N
     then [List.last (map snd rest) text] else [])%list.
Proof.
  intros Hs Hrest Hafter p burst.
  pose proof (script_page_boot doc) as Hboot.
  rewrite bool_decide_eq_true_2 in Hboot by exact Hs.
  pose proof (script_page_run true es _ Hboot) as Hp. fold p in Hp.
  assert (Hbox : is_Some (document p !! "search")).
  { apply (search_box_stays true); [exact Hboot|].
    destruct (boot_quiet doc) as (_ & _ & _ & -> & _). exact Hs. }
  assert (Hkey : step (Keystroke "search" text) p
                 = debounce HandleSearch 500
                     (set_document (<["search" := text]> (document p)) p))
    by (apply step_keystroke; [by destruct Hp|exact Hbox]).
  pose proof (script_page_step true (Keystroke "search" text) p Hp) as Hp0.
  set (p0 := step (Keystroke "search" text) p) in *.
  destruct (run_typing_among rest p0 text Hp0) as (Hq & Hd & Hdoc & Hsq).
  - by rewrite Hkey.
  - rewrite Hkey. apply lookup_insert_eq.
  - exact Hrest.
  - change (run burst p) with (run (typing_among rest) p0).
    split; [exact Hd|].
    replace (run (burst ++ after) p)
      with (run after (run (typing_among rest) p0))
      by (subst burst p0; unfold run; by rewrite fold_left_app).
    set (q := run (typing_among rest) p0) in *.
    destruct (segment_armed true after q 500 Hq Hafter Hd) as (_ & H); [lia|].
    replace (searches p0) with (searches p) in Hsq by (by rewrite Hkey).
    destruct (N.ltb_spec (elapsed after) 500) as [Hlt|Hge].
    + replace (500 <=? elapsed after)%N with false
        by (symmetry; apply N.leb_gt; lia).
      destruct H as [_ ->]. by rewrite Hsq, app_nil_r.
    + replace (500 <=? elapsed after)%N with true
        by (symmetry; apply N.leb_le; lia).
      destruct H as [_ ->]. by rewrite Hsq, Hdoc, <- app_assoc.
Qed.

Lemma gaps_last rest text :
  List.last (map snd (gaps rest)) text = List.last (map snd rest) text.
Proof. unfold gaps. by rewrite map_map. Qed.

(** C6. On any page the script has been running on (connected or not,
    timers running or not), keystrokes in the search input that follow
    one another by less than 500 ms fire exactly one search request,
    whatever else happens between them: it carries the text the last
    keystroke left in the input, and it fires when 500 ms have passed
    since that keystroke, not before.  Each keystroke leaves the timer
    armed for a full 500 ms. *)
Theorem debounce_fires_once_per_burst doc es text rest after :
  is_Some (doc !! "search") →
  Forall (λ k, Forall beside_search k.1 ∧ (elapsed k.1 < 500)%N) rest →
  Forall beside_search after →
  let p := run es (boot doc) in
  let burst := Keystroke "search" text :: typing_among rest in
  searches (run (burst ++ after) p)
  = (searches p ++ if (500 <=? elapsed after)%N
                   then [List.last (map snd rest) text] else [])%list ∧
  debounce_timer (run burst p) = Some (500%N, HandleSearch).
Proof.
  intros Hs Hrest Hafter p burst.
  destruct (searches_after_typing doc es text rest after Hs) as [Hd Hsr].
  - eapply Forall_impl; [exact Hrest|]. by intros k [Hk _].
  - exact Hafter.
  - split; [|exact Hd]. fold p burst in Hsr. rewrite Hsr.
    rewrite <- (app_nil_r (gaps rest)) at 1.
    rewrite fired_quiet_prefix, gaps_last; [done|].
    unfold gaps. apply Forall_map.
    eapply Forall_impl; [exact Hrest|]. by intros k [_ Hk].
Qed.

(** C7. On any page the script has been running on, when two
    consecutive keystrokes in the search input are at least 500 ms
    apart, the typing fires separate search requests: at least two, one
    for each settled quiet period (one more than the number of such
    gaps); with a single such gap exactly two, the text before the gap
    and the final text. *)
Theorem debounce_gap_gives_separate_requests
    doc es text pre between t post after :
  is_Some (doc !! "search") →
  Forall (λ k, Forall beside_search k.1) (pre ++ post) →
  Forall beside_search between → Forall beside_search after →
  (500 ≤ elapsed between)%N → (500 ≤ elapsed after)%N →
  let p := run es (boot doc) in
  let rest := (pre ++ (between, t) :: post)%list in
  let q := run (Keystroke "search" text :: typing_among rest ++ after) p in
  let requests := drop (length (searches p)) (searches q) in
  searches q = (searches p ++ requests)%list ∧
  (2 ≤ length requests)%nat ∧
  length requests
  = S (length (filter (λ g, (500 ≤ g.1)%N) (gaps rest))) ∧
  (Forall (λ k, (elapsed k.1 < 500)%N) (pre ++ post) →
   requests = [List.last (map snd pre) text; List.last (map snd post) t]).
Proof.
  intros Hs Hpp Hb Hafter Hg Hw p rest q requests.
  apply Forall_app in Hpp as [Hpre Hpost].
  destruct (searches_after_typing doc es text rest after Hs) as [_ Hsr].
  - subst rest. apply Forall_app. split; [exact Hpre|].
    apply Forall_cons. by split.
  - exact Hafter.
  - change (searches q
            = (searches p ++ fired text (gaps rest) ++
               if (500 <=? elapsed after)%N
               then [List.last (map snd rest) text] else [])%list) in Hsr.
    rewrite (proj2 (N.leb_le 500 _) Hw) in Hsr.
    assert (Hr : requests
                 = (fired text (gaps rest)
                    ++ [List.last (map snd rest) text])%list)
      by (subst requests; by rewrite Hsr, drop_app_length).
    assert (Hlen : length requests
                   = S (length (filter (λ g, (500 ≤ g.1)%N) (gaps rest)))).
    { rewrite Hr, length_app, fired_length. simpl. lia. }
    split; [by rewrite Hsr, Hr|]. split; [|split; [exact Hlen|]].
    + rewrite Hlen. subst rest. unfold gaps.
      rewrite map_app, filter_app, length_app. simpl map.
      rewrite filter_cons, decide_True by exact Hg. simpl. lia.
    + intros Hq. apply Forall_app in Hq as [Hqpre Hqpost].
      rewrite Hr. subst rest. unfold gaps at 1. rewrite map_app.
      fold (gaps pre).
      rewrite fired_quiet_prefix
        by (unfold gaps; by apply Forall_map).
      rewrite gaps_last.
      change (map (λ k : list event * string, (elapsed k.1, k.2))
                ((between, t) :: post))
        with ((elapsed between, t) :: gaps post).
      change (fired (List.last (map snd pre) text)
                ((elapsed between, t) :: gaps post))
        with ((if (500 <=? elapsed between)%N
               then [List.last (map snd pre) text] else [])
              ++ fired t (gaps post))%list.
      rewrite (proj2 (N.leb_le 500 _) Hg).
      rewrite <- (app_nil_r (gaps post)) at 1.
      rewrite fired_quiet_prefix
        by (unfold gaps; by apply Forall_map).
      simpl. do 2 f_equal.
      rewrite map_app.
      change (map snd ((between, t) :: post)) with (t :: map snd post).
      apply last_app_cons.
Qed.

End Page.

(** ** The theorems at sample inputs *)

Lemma no_overlapping_pagination_fetches_witness :
  loading (run never_positive [Scroll near_bottom] (boot sample_document))
  = true ∧
  fetches (run never_positive (map Scroll [near_bottom; near_bottom])
             (run never_positive [Scroll near_bottom] (boot sample_document)))
  = fetches (run never_positive [Scroll near_bottom] (boot sample_document)).
Proof.
  assert (Hl : loading (run never_positive [Scroll near_bottom]
                          (boot sample_document)) = true)
    by (vm_compute; reflexivity).
  split; [exact Hl|].
  pose proof (no_overlapping_pagination_fetches never_positive
                sample_document [Scroll near_bottom]
                [near_bottom; near_bottom]) as H.
  cbv zeta in H. destruct H as (_ & _ & H).
  destruct (H Hl) as [Hf _]. exact Hf.
Defined.

Lemma empty_new_blobs_is_a_no_op_witness :
  step never_positive (NewBlobs (JObj {[ "blobs" := JArr [] ]}))
    (run never_positive [] (boot sample_document))
  = run never_positive [] (boot sample_document).
Proof.
  assert (Hb : ({[ "blobs" := JArr [] ]} : gmap string jsval) !! "blobs"
               = Some (JArr [])) by (vm_compute; reflexivity).
  pose proof (empty_new_blobs_is_a_no_op never_positive sample_document []
                {[ "blobs" := JArr [] ]} Hb) as H.
  cbv zeta in H. destruct H as [_ H]. exact H.
Defined.

Lemma new_blobs_updates_feed_witness :
  let p := run never_positive [] (boot sample_document) in
  feed (step never_positive
          (NewBlobs (JObj {[ "blobs" := JArr [JStr "A"; JStr "B"] ]})) p)
  = ([JStr "A"; JStr "B"] ++ feed p)%list.
Proof.
  intros p.
  assert (Hb : ({[ "blobs" := JArr [JStr "A"; JStr "B"] ]}
                : gmap string jsval) !! "blobs"
               = Some (JArr [JStr "A"; JStr "B"])) by (vm_compute; reflexivity).
  assert (Hne : [JStr "A"; JStr "B"] ≠ []) by discriminate.
  pose proof (new_blobs_updates_feed never_positive sample_document []
                {[ "blobs" := JArr [JStr "A"; JStr "B"] ]}
                [JStr "A"; JStr "B"] Hb Hne) as H.
  cbv zeta in H. destruct H as (_ & _ & H & _). exact H.
Defined.

Lemma new_blobs_without_blobs_throws_witness :
  new_blobs_handler never_positive (JObj ∅) = Throw TypeError ∧
  uncaught (step never_positive (NewBlobs (JObj ∅))
              (run never_positive [] (boot sample_document)))
  = (uncaught (run never_positive [] (boot sample_document))
     ++ [TypeError])%list.
Proof.
  assert (Hb : (∅ : gmap string jsval) !! "blobs" = None)
    by (vm_compute; reflexivity).
  pose proof (new_blobs_without_blobs_throws never_positive sample_document
                [] ∅ Hb) as H.
  cbv zeta in H. destruct H as (H1 & H2 & _). exact (conj H1 H2).
Defined.

Lemma absent_search_input_is_skipped_witness :
  listeners_on (Element "search") (boot ∅) = [] ∧ uncaught (boot ∅) = [].
Proof.
  assert (Hs : (∅ : gmap string string) !! "search" = None)
    by (vm_compute; reflexivity).
  destruct (absent_search_input_is_skipped ∅ Hs) as (_ & Hl & _ & Hu).
  split; [apply Hl|exact Hu].
Defined.

Lemma search_listener_is_on_input_witness :
  listeners_on (Element "search") (boot sample_document)
  = [("input", Debounced HandleSearch 500)].
Proof.
  assert (Hs : is_Some (sample_document !! "search"))
    by (exists ""; vm_compute; reflexivity).
  destruct (search_listener_is_on_input never_positive sample_document []
              Hs) as [H _].
  exact H.
Defined.

(** C9, as the spec words it, fails: on a page with a search box the
    script registers no listener for the [change] event type on it. *)
Lemma search_listener_is_not_on_change :
  ¬ ∃ cb, In ("change", cb)
            (listeners_on (Element "search") (boot sample_document)).
Proof.
  intros [cb H]. vm_compute in H. destruct H as [H|[]]. discriminate H.
Qed.

Lemma short_document_loads_on_every_scroll_witness :
  invocations_of_loadMoreBlobs
    (run never_positive
       (map Scroll [{| innerHeight := 800; scrollY := 0; offsetHeight := 1500 |};
                    {| innerHeight := 800; scrollY := 3; offsetHeight := 1500 |}])
       (run never_positive [] (boot sample_document)))
  = (invocations_of_loadMoreBlobs
       (run never_positive [] (boot sample_document)) + 2)%nat.
Proof.
  assert (Hws : Forall (λ w, offsetHeight w ≤ innerHeight w + 1000
                             ∧ 0 ≤ scrollY w)
                  [{| innerHeight := 800; scrollY := 0; offsetHeight := 1500 |};
                   {| innerHeight := 800; scrollY := 3; offsetHeight := 1500 |}])
    by (repeat constructor; simpl; lia).
  exact (short_document_loads_on_every_scroll never_positive sample_document
           [] _ Hws).
Defined.

Lemma absent_search_input_never_activates_witness :
  searches (run never_positive [Keystroke "search" "blob"; Wait 600] (boot ∅))
  = [].
Proof.
  assert (Hs : searchInput ∅ = None) by (vm_compute; reflexivity).
  destruct (absent_search_input_never_activates never_positive ∅
              [Keystroke "search" "blob"; Wait 600] Hs) as (_ & _ & H).
  exact H.
Defined.

Lemma debounce_fires_once_per_burst_witness :
  searches
    (run never_positive
       ((Keystroke "search" "b"
         :: typing_among
              [([Wait 120], "bl");
               ([Wait 100; Scroll near_bottom; Wait 99], "blo")])
        ++ [Wait 500])
       (run never_positive [Connect; Wait 29800] (boot sample_document)))
  = (searches
       (run never_positive [Connect; Wait 29800] (boot sample_document))
     ++ ["blo"])%list.
Proof.
  assert (Hs : is_Some (sample_document !! "search"))
    by (exists ""; vm_compute; reflexivity).
  assert (Hrest : Forall (λ k : list event * string,
                            Forall beside_search k.1 ∧ (elapsed k.1 < 500)%N)
                    [([Wait 120], "bl");
                     ([Wait 100; Scroll near_bottom; Wait 99], "blo")])
    by (repeat first [constructor | intros ? ; discriminate
                     | (vm_compute; reflexivity)]).
  assert (Hafter : Forall beside_search [Wait 500])
    by (repeat first [constructor | intros ? ; discriminate]).
  pose proof (debounce_fires_once_per_burst never_positive sample_document
                [Connect; Wait 29800] "b" _ _ Hs Hrest Hafter) as H.
  cbv zeta in H. destruct H as [H _]. exact H.
Defined.

Lemma debounce_gap_gives_separate_requests_witness :
  drop
    (length (searches (run never_positive [Connect; Wait 29800]
                         (boot sample_document))))
    (searches
       (run never_positive
          (Keystroke "search" "b"
           :: typing_among
                ([([Wait 120], "bl")]
                 ++ ([Wait 300; NewBlobs (JObj ∅); Wait 200], "blo")
                    :: [([Wait 30], "blob")])
              ++ [Wait 500])
          (run never_positive [Connect; Wait 29800] (boot sample_document))))
  = ["bl"; "blob"].
Proof.
  assert (Hs : is_Some (sample_document !! "search"))
    by (exists ""; vm_compute; reflexivity).
  assert (Hpp : Forall (λ k : list event * string, Forall beside_search k.1)
                  ([([Wait 120], "bl")] ++ [([Wait 30], "blob")]))
    by (repeat first [constructor | intros ? ; discriminate]).
  assert (Hb : Forall beside_search [Wait 300; NewBlobs (JObj ∅); Wait 200])
    by (repeat first [constructor | intros ? ; discriminate]).
  assert (Hafter : Forall beside_search [Wait 500])
    by (repeat first [constructor | intros ? ; discriminate]).
  assert (Hg : (500 ≤ elapsed [Wait 300; NewBlobs (JObj ∅); Wait 200])%N)
    by (vm_compute; discriminate).
  assert (Hw : (500 ≤ elapsed [Wait 500])%N) by (vm_compute; discriminate).
  assert (Hq : Forall (λ k : list event * string, (elapsed k.1 < 500)%N)
                 ([([Wait 120], "bl")] ++ [([Wait 30], "blob")]))
    by (repeat first [constructor | (vm_compute; reflexivity)]).
  pose proof (debounce_gap_gives_separate_requests never_positive
                sample_document [Connect; Wait 29800] "b" _ _ "blo" _ _
                Hs Hpp Hb Hafter Hg Hw) as H.
  cbv zeta in H. destruct H as (_ & _ & _ & H). exact (H Hq).
Defined.

(** A payload whose [blobs] is there, but with a [length] that cannot be
    converted: the comparison throws, and the exception is uncaught. *)
Example unconvertible_length_throws :
  new_blobs_handler own_toString_unconvertible
    (JObj {[ "blobs" :=
               JObj {[ "length" :=
                         JObj {[ "valueOf" := JNum 0;
                                 "toString" := JNum 0 ]} ]} ]})
  = Throw TypeError ∧
  uncaught
    (step own_toString_unconvertible
       (NewBlobs
          (JObj {[ "blobs" :=
                     JObj {[ "length" :=
                               JObj {[ "valueOf" := JNum 0;
                                       "toString" := JNum 0 ]} ]} ]}))
       (boot sample_document))
  = [TypeError].
Proof. split; vm_compute; reflexivity. Qed.
